(** * rbf.basis: the RBF class, its function cache and its evaluator

    A shallow embedding of [rbf/basis.py].  The Python object [RBF] becomes
    a record, its methods become functions that pass the object along
    explicitly, exceptions become the [Raise] case of [result], and the
    symbolic-algebra library the module drives (sympy) is an interface,
    [Sympy], so that every statement about the module holds for whatever
    the library does.  A small reference instance of that interface, with
    IEEE double arithmetic taken from the primitive floats, runs the
    module on concrete arrays.

    Layout: Python values; the [Sympy] interface; the methods of [RBF]
    (section [Engine]); the reference engine (module [Ref]); the concrete
    objects; then the facts, first for every engine (section [Facts]),
    then on the reference engine (section [Scenarios]). *)

From Stdlib Require Import ZArith List Bool Floats String Lia.
From stdpp Require Import gmap strings list.

(** ** Python values *)

(** The [ValueError]s of the module, one constructor per [raise] site. *)
Inductive value_error :=
| NotAFunctionOfR        (* RBF expression must be a function of rbf.basis.R *)
| BadPackage             (* package must either be cython or numpy *)
| NotTwoDimensional      (* x and c must be two-dimensional arrays *)
| SpatialDimsDiffer      (* x and c must have the same number of spatial dimensions *)
| BadEps                 (* eps must be one-dimensional, one entry per row of c *)
| BadDiffLength.         (* diff must have the length of the spatial dimensions *)

Inductive exn :=
| ValueError (why : value_error)
| IndexError
| TypeError
| KeyError
| LibraryError (name : string).

Inductive result (A : Type) :=
| Ok (a : A)
| Raise (e : exn).
Arguments Ok {A} a.
Arguments Raise {A} e.

Definition and_then {A B} (r : result A) (k : A -> result B) : result B :=
  match r with
  | Ok a => k a
  | Raise ex => Raise ex
  end.

Definition is_ok {A} (r : result A) : bool :=
  match r with Ok _ => true | Raise _ => false end.

(** A float array: its shape and its entries in row-major order. *)
Record ndarray := { shape : list nat; data : list float }.

Definition ndim (a : ndarray) : nat := length (shape a).

(** [a.shape[i]]: indexing the shape tuple out of range is an IndexError. *)
Definition shape_at (a : ndarray) (i : nat) : result nat :=
  match shape a !! i with
  | Some n => Ok n
  | None => Raise IndexError
  end.

Definition size_of (s : list nat) : nat := fold_right Nat.mul 1 s.

(** [np.ones(n)] and an array of a given shape filled with one value
    ([arr = np.empty(s); arr[...] = v]). *)
Definition full (s : list nat) (v : float) : ndarray :=
  {| shape := s; data := repeat v (size_of s) |}.

Definition ones (n : nat) : ndarray := full [n] 1%float.

(** What a compiled function hands back: a Python scalar or an array
    ([np.isscalar] tells them apart). *)
Inductive pyval :=
| Scalar (v : float)
| Array (a : ndarray).

Definition isscalar (v : pyval) : bool :=
  match v with Scalar _ => true | Array _ => false end.

(** The derivative specification as the caller passes it: any sequence of
    ints, here a tuple or a list.  Only tuples are hashable. *)
Inductive pyseq :=
| PyTuple (items : list Z)
| PyList (items : list Z).

Definition items (d : pyseq) : list Z :=
  match d with PyTuple l | PyList l => l end.

Definition tuple (d : pyseq) : pyseq := PyTuple (items d).

Definition len (d : pyseq) : nat := length (items d).

Definition is_tuple (d : pyseq) : bool :=
  match d with PyTuple _ => true | PyList _ => false end.

#[global] Instance pyseq_eq_dec : EqDecision pyseq.
Proof. solve_decision. Defined.

#[global] Instance pyseq_countable : Countable pyseq.
Proof.
  refine (inj_countable'
            (fun d => (is_tuple d, items d))
            (fun p => if fst p then PyTuple (snd p) else PyList (snd p)) _).
  intros []; reflexivity.
Defined.

(** ** Symbols *)

(** [_R], [_EPS] and the coordinate symbols [x0, x1, ...], [c0, c1, ...]
    that [add_to_cache] makes with [sympy.symbols]. *)
Inductive symbol :=
| _R
| _EPS
| x_ (i : nat)
| c_ (i : nat).

#[global] Instance symbol_eq_dec : EqDecision symbol.
Proof. solve_decision. Defined.

(** The condition of a [Piecewise] branch: [lhs < tol] or [True]. *)
Inductive cond (E : Type) :=
| CondLt (lhs : E) (tol : float)
| CondTrue.
Arguments CondLt {E} lhs tol.
Arguments CondTrue {E}.

Inductive warning :=
| RuntimeWarning (what : string).

(** ** The symbolic-algebra library *)

(** What the module asks of sympy: expression building, [has], [subs],
    [diff], [limit], [Piecewise], the two compilers and the call of a
    compiled function, which yields a value or an exception together
    with the warnings numpy issued on the way. *)
Class Sympy := {
  expr : Type;
  func : Type;
  sym : symbol -> expr;
  int_ : Z -> expr;
  add_ : expr -> expr -> expr;
  sub_ : expr -> expr -> expr;
  mul_ : expr -> expr -> expr;
  pow_ : expr -> Z -> expr;
  sqrt_ : expr -> expr;
  has : expr -> symbol -> bool;
  subs : expr -> symbol -> expr -> expr;
  diff_ : expr -> list symbol -> result expr;
  limit : expr -> symbol -> expr -> result expr;
  Piecewise : expr * cond expr -> expr * cond expr -> expr;
  lambdify : list symbol -> expr -> result func;
  ufuncify : list symbol -> expr -> result func;
  call_func : func -> list ndarray -> result pyval * list warning
}.

(** ** The RBF object and its methods *)

Section Engine.
Context `{Sympy}.

(** A cached callable: what [ufuncify] returned, or what [lambdify]
    returned wrapped by [_check_lambdified_output]. *)
Inductive callable :=
| Plain (f : func)
| Fout (fin : func).

Record RBF := {
  _expr : expr;
  _package : string;
  _tol : option float;
  _cache : gmap pyseq callable
}.

(** What an observer of one evaluation can see besides the result. *)
Inductive event :=
| EvLookup (key : pyseq)
| EvCompile (package : string) (args : list symbol) (e : expr)
| EvInvoke (f : callable) (args : list ndarray).

(** The state the methods run in: the object, the events so far, the
    warning filter and the warnings that reached the caller. *)
Record world := {
  self : RBF;
  trace : list event;
  ignore_warnings : bool;
  shown : list warning
}.

Definition M (A : Type) : Type := world -> result A * world.

Definition ret {A} (a : A) : M A := fun w => (Ok a, w).

Definition raise {A} (e : exn) : M A := fun w => (Raise e, w).

Definition bind {A B} (m : M A) (k : A -> M B) : M B :=
  fun w =>
    match m w with
    | (Ok a, w') => k a w'
    | (Raise e, w') => (Raise e, w')
    end.

Definition lift {A} (r : result A) : M A := fun w => (r, w).

Notation "'let*' x ':=' m 'in' k" :=
  (bind m (fun x => k))
    (at level 10, x name, m at level 100, k at level 200).

Definition get_self : M RBF := fun w => (Ok (self w), w).

Definition put_self (o : RBF) : M unit :=
  fun w => (Ok tt, {| self := o; trace := trace w;
                      ignore_warnings := ignore_warnings w; shown := shown w |}).

Definition log (ev : event) : M unit :=
  fun w => (Ok tt, {| self := self w; trace := trace w ++ [ev];
                      ignore_warnings := ignore_warnings w; shown := shown w |}).

(** [warnings.warn]: the warning reaches the caller unless filtered. *)
Definition warn (ws : list warning) : M unit :=
  fun w => (Ok tt, {| self := self w; trace := trace w;
                      ignore_warnings := ignore_warnings w;
                      shown := if ignore_warnings w then shown w else shown w ++ ws |}).

Definition set_filter (b : bool) : M unit :=
  fun w => (Ok tt, {| self := self w; trace := trace w;
                      ignore_warnings := b; shown := shown w |}).

(** [with warnings.catch_warnings(): warnings.simplefilter("ignore"); body]:
    the filter state is restored on the way out, also by an exception. *)
Definition catch_warnings_ignore {A} (body : M A) : M A :=
  fun w =>
    let saved := ignore_warnings w in
    match set_filter true w with
    | (_, w1) =>
        match body w1 with
        | (r, w2) => (r, snd (set_filter saved w2))
        end
    end.

(** *** Module-level helpers *)

(** [x[np.isnan(x)] = 0.0; return x].  Item assignment on a Python scalar
    is a TypeError. *)
Definition _replace_nan (x : pyval) : result ndarray :=
  match x with
  | Array a =>
      Ok {| shape := shape a;
            data := map (fun v => if PrimFloat.is_nan v then 0%float else v) (data a) |}
  | Scalar _ => Raise TypeError
  end.

(** Calling a compiled function: its warnings go through the filter. *)
Definition call_compiled (f : func) (args : list ndarray) : M pyval :=
  match call_func f args with
  | (r, ws) => let* _ := warn ws in lift r
  end.

Definition first_arg (args : list ndarray) : result ndarray :=
  match head args with Some a => Ok a | None => Raise IndexError end.

Definition last_arg (args : list ndarray) : result ndarray :=
  match last args with Some a => Ok a | None => Raise IndexError end.

(** The closure [fout] that [_check_lambdified_output] returns. *)
Definition fout (fin : func) (args : list ndarray) : M pyval :=
  let* out := call_compiled fin args in
  let* x := lift (first_arg args) in
  let* eps := lift (last_arg args) in
  if isscalar out then
    let* n := lift (shape_at x 0) in
    let* m := lift (shape_at eps 0) in
    match out with
    | Scalar v => ret (Array (full [n; m] v))
    | Array _ => ret out
    end
  else ret out.

Definition _check_lambdified_output (fin : func) : callable := Fout fin.

(** What [fout] returns, the warnings aside. *)
Definition fout_value (fin : func) (args : list ndarray) : result pyval :=
  and_then (fst (call_func fin args)) (fun out =>
  and_then (first_arg args) (fun x =>
  and_then (last_arg args) (fun eps =>
  match out with
  | Scalar v =>
      and_then (shape_at x 0) (fun n =>
      and_then (shape_at eps 0) (fun m => Ok (Array (full [n; m] v))))
  | Array _ => Ok out
  end))).

Definition callable_value (f : callable) (args : list ndarray) : result pyval :=
  match f with
  | Plain g => fst (call_func g args)
  | Fout fin => fout_value fin args
  end.

Definition call_callable (f : callable) (args : list ndarray) : M pyval :=
  match f with
  | Plain g => call_compiled g args
  | Fout fin => fout fin args
  end.

(** *** Setters *)

Definition set_tol (o : RBF) (tol : option float) : RBF :=
  {| _expr := _expr o; _package := _package o; _tol := tol; _cache := _cache o |}.

Definition valid_package (package : string) : bool :=
  bool_decide (package ∈ ["cython"; "numpy"]%string).

Definition set_package (o : RBF) (package : string) : result RBF :=
  if valid_package package then
    Ok {| _expr := _expr o; _package := package; _tol := _tol o; _cache := _cache o |}
  else Raise (ValueError BadPackage).

Definition clear_cache (o : RBF) : RBF :=
  {| _expr := _expr o; _package := _package o; _tol := _tol o; _cache := ∅ |}.

(** *** Construction *)

(** The expression [__init__] keeps. *)
Definition normalize (e : expr) : result expr :=
  if negb (has e _R) then Raise (ValueError NotAFunctionOfR)
  else if negb (has e _EPS) then Ok (subs e _R (mul_ (sym _EPS) (sym _R)))
  else Ok e.

(** [__init__(self, expr, package, tol)]; the caller leaves [package] and
    [tol] out to get ["cython"] and [None].  The attributes are set in the
    order of the source; none is read before it is set. *)
Definition __init__ (e : expr) (package : string) (tol : option float) : result RBF :=
  match normalize e with
  | Raise ex => Raise ex
  | Ok e' =>
      let o := {| _expr := e'; _package := EmptyString; _tol := None; _cache := ∅ |} in
      match set_package o package with
      | Raise ex => Raise ex
      | Ok o1 => Ok (clear_cache (set_tol o1 tol))
      end
  end.

(** *** add_to_cache *)

Definition x_sym (dim : nat) : list symbol := map x_ (seq 0 dim).
Definition c_sym (dim : nat) : list symbol := map c_ (seq 0 dim).

(** [sympy.sqrt(sum((xi-ci)**2 for xi,ci in zip(x_sym,c_sym)))]; [sum]
    starts from the int 0 and adds from the left. *)
Definition r_sym (dim : nat) : expr :=
  sqrt_ (fold_left add_
           (map (fun p => pow_ (sub_ (sym (fst p)) (sym (snd p))) 2)
                (zip (x_sym dim) (c_sym dim)))
           (int_ 0)).

(** The differentiation loop.  [(xi,)*order] is the empty tuple when
    [order] is negative. *)
Fixpoint differentiate (e : expr) (todo : list (symbol * Z)) : result expr :=
  match todo with
  | [] => Ok e
  | (xi, order) :: rest =>
      if (order =? 0)%Z then differentiate e rest
      else match diff_ e (replicate (Z.to_nat order) xi) with
           | Ok e' => differentiate e' rest
           | Raise ex => Raise ex
           end
  end.

(** The limit loop: [center_expr = center_expr.limit(xi, ci)]. *)
Fixpoint limits (e : expr) (todo : list (symbol * symbol)) : result expr :=
  match todo with
  | [] => Ok e
  | (xi, ci) :: rest =>
      match limit e xi (sym ci) with
      | Ok e' => limits e' rest
      | Raise ex => Raise ex
      end
  end.

(** The expression [add_to_cache] hands to the compiler. *)
Definition symbolic (o : RBF) (d : list Z) : result expr :=
  let dim := length d in
  match differentiate (subs (_expr o) _R (r_sym dim)) (zip (x_sym dim) d) with
  | Raise ex => Raise ex
  | Ok e =>
      match _tol o with
      | None => Ok e
      | Some tol =>
          match limits e (zip (x_sym dim) (c_sym dim)) with
          | Raise ex => Raise ex
          | Ok center_expr =>
              Ok (Piecewise (center_expr, CondLt (r_sym dim) tol) (e, CondTrue))
          end
      end
  end.

Definition compile_args (dim : nat) : list symbol :=
  x_sym dim ++ c_sym dim ++ [_EPS].

Definition cache_store (key : pyseq) (f : callable) : M unit :=
  let* o := get_self in
  put_self {| _expr := _expr o; _package := _package o; _tol := _tol o;
              _cache := <[key := f]> (_cache o) |}.

Definition add_to_cache (d : pyseq) : M unit :=
  let d := tuple d in
  let dim := len d in
  let* o := get_self in
  let* e := lift (symbolic o (items d)) in
  if String.eqb (_package o) "numpy"%string then
    let* _ := log (EvCompile "numpy"%string (compile_args dim) e) in
    let* f := lift (lambdify (compile_args dim) e) in
    cache_store d (_check_lambdified_output f)
  else if String.eqb (_package o) "cython"%string then
    let* _ := log (EvCompile "cython"%string (compile_args dim) e) in
    let* f := lift (ufuncify (compile_args dim) e) in
    cache_store d (Plain f)
  else ret tt.

(** *** __call__ *)

(** [diff not in self._cache] and [self._cache[diff]]; a key that is not
    hashable is a TypeError. *)
Definition cache_contains (key : pyseq) : M bool :=
  if is_tuple key then
    let* _ := log (EvLookup key) in
    let* o := get_self in
    ret (bool_decide (is_Some (_cache o !! key)))
  else raise TypeError.

Definition cache_getitem (key : pyseq) : M callable :=
  if is_tuple key then
    let* _ := log (EvLookup key) in
    let* o := get_self in
    match _cache o !! key with
    | Some f => ret f
    | None => raise KeyError
    end
  else raise TypeError.

(** Column [k] of an (n, d) array. *)
Definition column (n d k : nat) (a : ndarray) : list float :=
  map (fun i => nth (i * d + k) (data a) 0%float) (seq 0 n).

(** [x = x[:,None,:]; x = np.einsum('ijk->kij',x); tuple(x)]: one (N,1)
    array per axis.  Reached with two-dimensional arrays only. *)
Definition per_axis_points (x : ndarray) : result (list ndarray) :=
  match shape x with
  | [n; d] => Ok (map (fun k => {| shape := [n; 1]; data := column n d k x |}) (seq 0 d))
  | _ => Raise IndexError
  end.

(** The same for [c[None,:,:]]: one (1,M) array per axis. *)
Definition per_axis_centers (c : ndarray) : result (list ndarray) :=
  match shape c with
  | [m; d] => Ok (map (fun k => {| shape := [1; m]; data := column m d k c |}) (seq 0 d))
  | _ => Raise IndexError
  end.

(** The last part of [__call__], from the cache test on: compile on a
    miss, then call the cached function under the warning filter and
    clean its output. *)
Definition call_cached (d : pyseq) (args : list ndarray) : M ndarray :=
  let* hit := cache_contains d in
  let* _ := if negb hit then add_to_cache d else ret tt in
  catch_warnings_ignore
    (let* f := cache_getitem d in
     let* _ := log (EvInvoke f args) in
     let* out := call_callable f args in
     lift (_replace_nan out)).

Definition __call__ (x c : ndarray) (eps : option ndarray) (d : option pyseq)
  : M ndarray :=
  let* eps :=
    match eps with
    | None => let* m := lift (shape_at c 0) in ret (ones m)
    | Some e => ret e
    end in
  let* d :=
    match d with
    | None => let* dim := lift (shape_at x 1) in ret (PyTuple (repeat 0%Z dim))
    | Some d => ret (tuple d)
    end in
  if negb ((ndim x =? 2)%nat && (ndim c =? 2)%nat) then raise (ValueError NotTwoDimensional)
  else
  let* dx := lift (shape_at x 1) in
  let* dc := lift (shape_at c 1) in
  if negb (dx =? dc)%nat then raise (ValueError SpatialDimsDiffer)
  else
  let* e0 := lift (shape_at eps 0) in
  let* c0 := lift (shape_at c 0) in
  if negb ((ndim eps =? 1)%nat && (e0 =? c0)%nat) then raise (ValueError BadEps)
  else
  if negb (len d =? dx)%nat then raise (ValueError BadDiffLength)
  else
  let* xs := lift (per_axis_points x) in
  let* cs := lift (per_axis_centers c) in
  call_cached d (xs ++ cs ++ [eps]).

End Engine.

Arguments RBF {_}.
Arguments world {_}.
Arguments event {_}.
Arguments callable {_}.

(** ** A reference symbolic engine

    A small instance of [Sympy] on which the module runs: expression trees
    that simplify as they are built (the way sympy evaluates [0 + e],
    [1 * e], [sqrt(s)**2] on construction), structural differentiation,
    and numeric evaluation with numpy's broadcasting over IEEE doubles. *)

Module Ref.

#[warnings="-register-all"] Inductive sexpr :=
| Num (z : Z)
| Var (s : symbol)
| Add (a b : sexpr)
| Mul (a b : sexpr)
| Pow (b : sexpr) (n : Z)
| Sqrt (b : sexpr)
| Pw (e1 : sexpr) (c1 : cond sexpr) (e2 : sexpr) (c2 : cond sexpr).

Definition mkAdd (a b : sexpr) : sexpr :=
  match a, b with
  | Num x, Num y => Num (x + y)
  | Num Z0, _ => b
  | _, Num Z0 => a
  | _, _ => Add a b
  end.

Definition mkMul (a b : sexpr) : sexpr :=
  match a, b with
  | Num x, Num y => Num (x * y)
  | Num Z0, _ => Num 0
  | _, Num Z0 => Num 0
  | Num (Zpos xH), _ => b
  | _, Num (Zpos xH) => a
  | _, _ => Mul a b
  end.

Definition mkSub (a b : sexpr) : sexpr := mkAdd a (mkMul (Num (-1)) b).

Definition mkSqrt (b : sexpr) : sexpr :=
  match b with
  | Num Z0 => Num 0
  | Num (Zpos xH) => Num 1
  | _ => Sqrt b
  end.

Definition mkPow1 (b : sexpr) (n : Z) : sexpr :=
  if (n =? 0)%Z then Num 1
  else if (n =? 1)%Z then b
  else match b with
       | Num x => if (0 <=? n)%Z then Num (x ^ n) else Pow b n
       | Sqrt s => if (n =? 2)%Z then s else Pow b n
       | _ => Pow b n
       end.

(** An integer power is taken factor by factor:
    [(a*b)**n] is [a**n * b**n]. *)
Fixpoint mkPow (b : sexpr) (n : Z) : sexpr :=
  match b with
  | Mul a c => mkMul (mkPow a n) (mkPow c n)
  | _ => mkPow1 b n
  end.

Definition map_cond (f : sexpr -> sexpr) (c : cond sexpr) : cond sexpr :=
  match c with
  | CondLt l t => CondLt (f l) t
  | CondTrue => CondTrue
  end.

(** The symbols an expression mentions, with repetitions. *)
Fixpoint symbols_of (e : sexpr) : list symbol :=
  match e with
  | Num _ => []
  | Var s => [s]
  | Add a b | Mul a b => symbols_of a ++ symbols_of b
  | Pow b _ | Sqrt b => symbols_of b
  | Pw e1 c1 e2 c2 =>
      symbols_of e1
        ++ match c1 with CondLt l _ => symbols_of l | CondTrue => [] end
        ++ symbols_of e2
        ++ match c2 with CondLt l _ => symbols_of l | CondTrue => [] end
  end.

Definition free_symbols (e : sexpr) : list symbol := remove_dups (symbols_of e).

Definition shas (e : sexpr) (s : symbol) : bool := bool_decide (s ∈ symbols_of e).

Fixpoint ssubs (e : sexpr) (s : symbol) (v : sexpr) : sexpr :=
  match e with
  | Num z => Num z
  | Var s' => if decide (s' = s) then v else Var s'
  | Add a b => mkAdd (ssubs a s v) (ssubs b s v)
  | Mul a b => mkMul (ssubs a s v) (ssubs b s v)
  | Pow b n => mkPow (ssubs b s v) n
  | Sqrt b => mkSqrt (ssubs b s v)
  | Pw e1 c1 e2 c2 =>
      Pw (ssubs e1 s v)
         match c1 with CondLt l t => CondLt (ssubs l s v) t | CondTrue => CondTrue end
         (ssubs e2 s v)
         match c2 with CondLt l t => CondLt (ssubs l s v) t | CondTrue => CondTrue end
  end.

(** One derivative with respect to one symbol. *)
Fixpoint d1 (x : symbol) (e : sexpr) : sexpr :=
  match e with
  | Num _ => Num 0
  | Var s => if decide (s = x) then Num 1 else Num 0
  | Add a b => mkAdd (d1 x a) (d1 x b)
  | Mul a b => mkAdd (mkMul (d1 x a) b) (mkMul a (d1 x b))
  | Pow b n => mkMul (mkMul (Num n) (mkPow b (n - 1))) (d1 x b)
  | Sqrt b => mkMul (d1 x b) (mkPow (mkMul (Num 2) (mkSqrt b)) (-1))
  | Pw e1 c1 e2 c2 => Pw (d1 x e1) c1 (d1 x e2) c2
  end.

(** [expr.diff] on a tuple of variables.  Without variables sympy differentiates with
    respect to the only free symbol, gives 0 for a number, and raises a
    ValueError otherwise. *)
Definition sdiff (e : sexpr) (vars : list symbol) : result sexpr :=
  match vars with
  | [] =>
      match free_symbols e with
      | [s] => Ok (d1 s e)
      | [] => Ok (Num 0)
      | _ => Raise (LibraryError "ValueError")
      end
  | _ => Ok (fold_left (fun acc x => d1 x acc) vars e)
  end.

(** *** Limits

    [expr.limit(z, z0)] is the limit from the right, sympy's default
    direction.  With [h = z - z0 > 0] the expression is expanded in powers
    of [h] (half-integer powers included, for square roots), as far as its
    lowest powers are determined; the limit is read off the terms of
    power 0.  So [EPS*sqrt((x0-c0)**2)] has the limit 0 at [x0 = c0], and
    its first derivative the limit [EPS].

    The reference engine computes the finite limits of expressions built
    from sums, products, integer powers and square roots.  Where the limit
    is infinite sympy answers with an infinity, which the expressions of
    the reference engine do not have: such a limit is outside the
    reference engine, which raises there, and no run below takes one. *)

(** A rational coefficient in lowest terms. *)
Record rat := { numer : Z; denom : positive }.

Definition rat_norm (n : Z) (d : positive) : rat :=
  let g := Z.gcd n (Zpos d) in
  {| numer := (n / g)%Z; denom := Z.to_pos (Zpos d / g) |}.

Definition rat_of_Z (n : Z) : rat := {| numer := n; denom := 1 |}.

Definition rat_add (a b : rat) : rat :=
  rat_norm (numer a * Zpos (denom b) + numer b * Zpos (denom a)) (denom a * denom b).

Definition rat_mul (a b : rat) : rat :=
  rat_norm (numer a * numer b) (denom a * denom b).

(** The inverse of a coefficient that is not 0. *)
Definition rat_inv (a : rat) : rat :=
  match numer a with
  | Zpos p => {| numer := Zpos (denom a); denom := p |}
  | Zneg p => {| numer := Zneg (denom a); denom := p |}
  | Z0 => a
  end.

(** The square root of a coefficient that is a square. *)
Definition rat_sqrt (a : rat) : option rat :=
  let n := Z.sqrt (numer a) in
  let d := Z.sqrt (Zpos (denom a)) in
  if ((0 <? numer a) && (n * n =? numer a) && (d * d =? Zpos (denom a)))%Z
  then Some {| numer := n; denom := Z.to_pos d |}
  else None.

Definition sexpr_of_rat (a : rat) : sexpr :=
  match denom a with
  | xH => Num (numer a)
  | d => Mul (Num (numer a)) (Pow (Num (Zpos d)) (-1))
  end.

(** Syntactic equality, used to collect like terms; a [Piecewise] is
    like no other term. *)
Fixpoint sexpr_eqb (a b : sexpr) : bool :=
  match a, b with
  | Num x, Num y => (x =? y)%Z
  | Var s, Var t => bool_decide (s = t)
  | Add a1 a2, Add b1 b2 => sexpr_eqb a1 b1 && sexpr_eqb a2 b2
  | Mul a1 a2, Mul b1 b2 => sexpr_eqb a1 b1 && sexpr_eqb a2 b2
  | Pow a1 n, Pow b1 m => sexpr_eqb a1 b1 && (n =? m)%Z
  | Sqrt a1, Sqrt b1 => sexpr_eqb a1 b1
  | _, _ => false
  end.

(** One term [coeff * factor * h^(order2/2)], the factor free of [h]. *)
Record term := { order2 : Z; coeff : rat; factor : sexpr }.

(** A sum of terms.  With [known_to = Some p] only the terms of
    [order2 <= p] are listed and the rest of the expansion is of higher
    order; with [None] the sum is the whole expression. *)
Record series := { terms : list term; known_to : option Z }.

Definition s_const (n : Z) : series :=
  {| terms := if (n =? 0)%Z then []
              else [{| order2 := 0; coeff := rat_of_Z n; factor := Num 1 |}];
     known_to := None |}.

Definition s_rat (q : rat) : series :=
  {| terms := if (numer q =? 0)%Z then []
              else [{| order2 := 0; coeff := q; factor := Num 1 |}];
     known_to := None |}.

(** A factor free of [h]; a number, or a power of a number, goes into
    the coefficient. *)
Definition s_atom (e : sexpr) : series :=
  match e with
  | Num n => s_const n
  | Pow (Num n) k =>
      if (n =? 0)%Z then
        {| terms := [{| order2 := 0; coeff := rat_of_Z 1; factor := e |}];
           known_to := None |}
      else if (0 <=? k)%Z then s_const (n ^ k)
      else s_rat (rat_inv (rat_of_Z (n ^ (- k))))
  | _ => {| terms := [{| order2 := 0; coeff := rat_of_Z 1; factor := e |}];
            known_to := None |}
  end.

Definition s_h : series :=
  {| terms := [{| order2 := 2; coeff := rat_of_Z 1; factor := Num 1 |}];
     known_to := None |}.

Fixpoint add_term (t : term) (l : list term) : list term :=
  match l with
  | [] => [t]
  | u :: l' =>
      if (order2 t =? order2 u)%Z && sexpr_eqb (factor t) (factor u) then
        let q := rat_add (coeff t) (coeff u) in
        if (numer q =? 0)%Z then l'
        else {| order2 := order2 u; coeff := q; factor := factor u |} :: l'
      else u :: add_term t l'
  end.

Definition min_known (p q : option Z) : option Z :=
  match p, q with
  | None, r | r, None => r
  | Some a, Some b => Some (Z.min a b)
  end.

Definition truncate (p : option Z) (l : list term) : list term :=
  match p with
  | None => l
  | Some b => List.filter (fun t => (order2 t <=? b)%Z) l
  end.

(** The lowest order a series can have: that of its lowest term, or the
    bound beyond which it is not known; none for the exact 0. *)
Definition lowest (s : series) : option Z :=
  match terms s with
  | [] => known_to s
  | t :: l => Some (fold_left (fun m u => Z.min m (order2 u)) l (order2 t))
  end.

Definition s_add (a b : series) : series :=
  let p := min_known (known_to a) (known_to b) in
  {| terms := truncate p (fold_right add_term (terms b) (terms a)); known_to := p |}.

Definition term_mul (t u : term) : term :=
  {| order2 := order2 t + order2 u; coeff := rat_mul (coeff t) (coeff u);
     factor := mkMul (factor t) (factor u) |}.

Definition shift (p : option Z) (by_ : option Z) : option Z :=
  match p, by_ with
  | Some a, Some b => Some (a + b)%Z
  | _, _ => None
  end.

Definition s_mul (a b : series) : series :=
  match lowest a, lowest b with
  | None, _ | _, None => s_const 0
  | la, lb =>
      let p := min_known (shift (known_to a) lb) (shift (known_to b) la) in
      {| terms := truncate p
                    (fold_right add_term []
                       (flat_map (fun t => map (term_mul t) (terms b)) (terms a)));
         known_to := p |}
  end.

Fixpoint s_pow (a : series) (n : nat) : series :=
  match n with
  | O => s_const 1
  | S k => s_mul a (s_pow a k)
  end.

(** The term of lowest order, when there is exactly one of that order. *)
Definition leading (s : series) : option term :=
  match lowest s with
  | None => None
  | Some m =>
      match List.filter (fun t => (order2 t =? m)%Z) (terms s) with
      | [t] => Some t
      | _ => None
      end
  end.

Definition is_monomial (s : series) : bool :=
  match terms s, known_to s with
  | [_], None => true
  | _, _ => false
  end.

Definition factor_inv (f : sexpr) : sexpr :=
  match f with
  | Num (Zpos xH) => Num 1
  | _ => mkPow f (-1)
  end.

Definition s_inv (s : series) : result series :=
  match leading s with
  | None => Raise (LibraryError "NotImplementedError")
  | Some t =>
      Ok {| terms := [{| order2 := - order2 t; coeff := rat_inv (coeff t);
                         factor := factor_inv (factor t) |}];
            known_to := if is_monomial s then None else Some (- order2 t)%Z |}
  end.

(** The square root, for [h > 0]: [sqrt(h^2) = h]. *)
Definition s_sqrt (s : series) : result series :=
  match terms s, known_to s with
  | [], None => Ok (s_const 0)
  | _, _ =>
      match leading s with
      | None => Raise (LibraryError "NotImplementedError")
      | Some t =>
          match rat_sqrt (coeff t), Z.even (order2 t) with
          | Some q, true =>
              Ok {| terms := [{| order2 := order2 t / 2; coeff := q;
                                 factor := mkSqrt (factor t) |}];
                    known_to := if is_monomial s then None else Some (order2 t / 2)%Z |}
          | _, _ => Raise (LibraryError "NotImplementedError")
          end
      end
  end.

(** The expansion of [e] at [z = z0 + h].  Sums and products are
    expanded; a power or a square root that does not mention [z] is a
    factor as it stands. *)
Fixpoint expand (z : symbol) (z0 : sexpr) (e : sexpr) : result series :=
  match e with
  | Num n => Ok (s_const n)
  | Var s => if decide (s = z) then Ok (s_add (s_atom z0) s_h) else Ok (s_atom e)
  | Add a b =>
      and_then (expand z z0 a) (fun sa =>
      and_then (expand z z0 b) (fun sb => Ok (s_add sa sb)))
  | Mul a b =>
      and_then (expand z z0 a) (fun sa =>
      and_then (expand z z0 b) (fun sb => Ok (s_mul sa sb)))
  | Pow b n =>
      if negb (shas e z) then Ok (s_atom e)
      else
        and_then (expand z z0 b) (fun sb =>
        if (0 <=? n)%Z then Ok (s_pow sb (Z.to_nat n))
        else s_inv (s_pow sb (Z.to_nat (- n))))
  | Sqrt b =>
      if negb (shas e z) then Ok (s_atom e)
      else and_then (expand z z0 b) s_sqrt
  | Pw _ _ _ _ =>
      if negb (shas e z) then Ok (s_atom e)
      else Raise (LibraryError "NotImplementedError")
  end.

Definition sexpr_of_term (t : term) : sexpr :=
  mkMul (sexpr_of_rat (coeff t)) (factor t).

(** [expr.limit(z, z0)].  An expression without [z] is its own limit;
    otherwise the limit is the sum of the terms of power 0 of the
    expansion.  A limit that is infinite (a term of negative power), or
    that the expansion does not determine, is outside the reference
    engine, which raises. *)
Definition slimit (e : sexpr) (z : symbol) (z0 : sexpr) : result sexpr :=
  if negb (shas e z) then Ok e
  else
    and_then (expand z z0 e) (fun s =>
    let unknown := match known_to s with Some p => (p <? 0)%Z | None => false end in
    if unknown || existsb (fun t => (order2 t <? 0)%Z) (terms s)
    then Raise (LibraryError "NotImplementedError")
    else Ok (fold_left mkAdd
               (map sexpr_of_term (List.filter (fun t => (order2 t =? 0)%Z) (terms s)))
               (Num 0))).

(** *** Numeric evaluation *)

Fixpoint float_of_pos (p : positive) : float :=
  match p with
  | xH => 1%float
  | xO q => PrimFloat.mul 2%float (float_of_pos q)
  | xI q => PrimFloat.add (PrimFloat.mul 2%float (float_of_pos q)) 1%float
  end.

Definition float_of_Z (z : Z) : float :=
  match z with
  | Z0 => 0%float
  | Zpos p => float_of_pos p
  | Zneg p => PrimFloat.opp (float_of_pos p)
  end.

Fixpoint fpow (v : float) (n : nat) : float :=
  match n with
  | O => 1%float
  | S k => PrimFloat.mul v (fpow v k)
  end.

Definition fpowZ (v : float) (n : Z) : float :=
  if (n <? 0)%Z then PrimFloat.div 1%float (fpow v (Z.to_nat (- n)))
  else fpow v (Z.to_nat n).

(** Broadcasting of two shapes, aligned on the right. *)
Fixpoint bshape_rev (a b : list nat) : option (list nat) :=
  match a, b with
  | [], _ => Some b
  | _, [] => Some a
  | x :: a', y :: b' =>
      if (x =? y)%nat then cons x <$> bshape_rev a' b'
      else if (x =? 1)%nat then cons y <$> bshape_rev a' b'
      else if (y =? 1)%nat then cons x <$> bshape_rev a' b'
      else None
  end.

Definition bshape (s1 s2 : list nat) : option (list nat) :=
  option_map (@rev nat) (bshape_rev (rev s1) (rev s2)).

Definition pad (n : nat) (s : list nat) : list nat :=
  repeat 1%nat (n - length s) ++ s.

(** The entries of an array of shape [s] read at shape [t]. *)
Fixpoint bcast (t s : list nat) (d : list float) : list float :=
  match t, s with
  | n :: t', m :: s' =>
      if (m =? 1)%nat then concat (repeat (bcast t' s' d) n)
      else concat (map (fun i => bcast t' s' (take (size_of s') (drop (i * size_of s') d)))
                       (seq 0 n))
  | _, _ => d
  end.

Definition broadcast_to (t : list nat) (a : ndarray) : list float :=
  bcast t (pad (length t) (shape a)) (data a).

Definition unop (f : float -> float) (a : ndarray) : ndarray :=
  {| shape := shape a; data := map f (data a) |}.

Definition binop (f : float -> float -> float) (a b : ndarray) : result ndarray :=
  match bshape (shape a) (shape b) with
  | Some s => Ok {| shape := s; data := zip_with f (broadcast_to s a) (broadcast_to s b) |}
  | None => Raise (LibraryError "ValueError")
  end.

Definition scalar (v : float) : ndarray := {| shape := []; data := [v] |}.

(** [where(lhs < tol, a, b)]. *)
Definition where_lt (tol : float) (lhs a b : ndarray) : result ndarray :=
  match bshape (shape lhs) (shape a) with
  | None => Raise (LibraryError "ValueError")
  | Some s1 =>
      match bshape s1 (shape b) with
      | None => Raise (LibraryError "ValueError")
      | Some s =>
          Ok {| shape := s;
                data := zip_with (fun l p => if PrimFloat.ltb l tol then fst p else snd p)
                          (broadcast_to s lhs)
                          (zip (broadcast_to s a) (broadcast_to s b)) |}
      end
  end.

Fixpoint env_get (env : list (symbol * ndarray)) (s : symbol) : option ndarray :=
  match env with
  | [] => None
  | (s', a) :: rest => if decide (s' = s) then Some a else env_get rest s
  end.

(** The value of an expression on argument arrays; a result of shape []
    stands for a scalar. *)
Fixpoint eval (env : list (symbol * ndarray)) (e : sexpr) : result ndarray :=
  match e with
  | Num z => Ok (scalar (float_of_Z z))
  | Var s =>
      match env_get env s with
      | Some a => Ok a
      | None => Raise (LibraryError "NameError")
      end
  | Add a b =>
      and_then (eval env a) (fun va =>
      and_then (eval env b) (fun vb => binop PrimFloat.add va vb))
  | Mul a b =>
      and_then (eval env a) (fun va =>
      and_then (eval env b) (fun vb => binop PrimFloat.mul va vb))
  | Pow b n => and_then (eval env b) (fun vb => Ok (unop (fun v => fpowZ v n) vb))
  | Sqrt b => and_then (eval env b) (fun vb => Ok (unop PrimFloat.sqrt vb))
  | Pw e1 c1 e2 c2 =>
      and_then (eval env e1) (fun v1 =>
      and_then (eval env e2) (fun v2 =>
      and_then
        match c2 with
        | CondTrue => Ok v2
        | CondLt l t => and_then (eval env l) (fun vl => where_lt t vl v2 (scalar nan))
        end (fun otherwise =>
      match c1 with
      | CondTrue => Ok v1
      | CondLt l t => and_then (eval env l) (fun vl => where_lt t vl v1 otherwise)
      end)))
  end.

(** A compiled function: the argument symbols, the expression, and
    whether it is a ufunc (cython) or a lambda over numpy (numpy). *)
Record sfunc := { as_ufunc : bool; fargs : list symbol; fbody : sexpr }.

Definition nonfinite (a : ndarray) : bool :=
  existsb (fun v => PrimFloat.is_nan v || PrimFloat.is_infinity v) (data a).

Definition common_shape (args : list ndarray) : option (list nat) :=
  fold_left (fun acc a => match acc with
                          | Some s => bshape s (shape a)
                          | None => None
                          end) args (Some []).

(** Calling a compiled function.  A lambda gives a scalar when its
    expression mentions no array; a ufunc always gives an array of the
    common shape of its arguments.  One RuntimeWarning is issued when the
    value holds a NaN or an infinity. *)
Definition scall (f : sfunc) (args : list ndarray) : result pyval * list warning :=
  if negb (length args =? length (fargs f))%nat then (Raise TypeError, [])
  else
    match eval (zip (fargs f) args) (fbody f) with
    | Raise ex => (Raise ex, [])
    | Ok v =>
        let ws := if nonfinite v then [RuntimeWarning "invalid value or divide by zero"]
                  else [] in
        if as_ufunc f then
          match common_shape args with
          | Some s => (Ok (Array {| shape := s; data := broadcast_to s v |}), ws)
          | None => (Raise (LibraryError "ValueError"), [])
          end
        else
          match shape v, data v with
          | [], [x] => (Ok (Scalar x), ws)
          | _, _ => (Ok (Array v), ws)
          end
    end.

Definition reference : Sympy := {|
  expr := sexpr;
  func := sfunc;
  sym := Var;
  int_ := Num;
  add_ := mkAdd;
  sub_ := mkSub;
  mul_ := mkMul;
  pow_ := mkPow;
  sqrt_ := mkSqrt;
  has := shas;
  subs := ssubs;
  diff_ := sdiff;
  limit := slimit;
  Piecewise := fun b1 b2 => Pw (fst b1) (snd b1) (fst b2) (snd b2);
  lambdify := fun args e => Ok {| as_ufunc := false; fargs := args; fbody := e |};
  ufuncify := fun args e => Ok {| as_ufunc := true; fargs := args; fbody := e |};
  call_func := scall
|}.

End Ref.

(** ** Running the methods *)

Section Runs.
Context `{Sympy}.

(** The world a caller starts from: nothing observed yet, warnings shown. *)
Definition fresh (o : RBF) : world :=
  {| self := o; trace := []; ignore_warnings := false; shown := [] |}.

Definition is_compile (ev : event) : bool :=
  match ev with EvCompile _ _ _ => true | _ => false end.

(** The number of compiler invocations in a trace. *)
Definition compilations (t : list event) : nat := length (List.filter is_compile t).

(** A world with more events, and with one more cache entry. *)
Definition logged (w : world) (evs : list event) : world :=
  {| self := self w; trace := trace w ++ evs;
     ignore_warnings := ignore_warnings w; shown := shown w |}.

Definition stored (w : world) (key : pyseq) (f : callable) : world :=
  {| self := {| _expr := _expr (self w); _package := _package (self w);
                _tol := _tol (self w); _cache := <[key := f]> (_cache (self w)) |};
     trace := trace w; ignore_warnings := ignore_warnings w; shown := shown w |}.

(** The compiler [add_to_cache] picks for a package, if any. *)
Definition compile_with (package : string) (args : list symbol) (e : expr)
  : option (result callable) :=
  if String.eqb package "numpy" then
    Some (and_then (lambdify args e) (fun f => Ok (_check_lambdified_output f)))
  else if String.eqb package "cython" then
    Some (and_then (ufuncify args e) (fun f => Ok (Plain f)))
  else None.

(** The arguments the compiled function is called with. *)
Definition call_args (x c eps : ndarray) : list ndarray :=
  match per_axis_points x, per_axis_centers c with
  | Ok xs, Ok cs => xs ++ cs ++ [eps]
  | _, _ => []
  end.

(** The defaults of [eps] and [diff]. *)
Definition resolved_eps (c : ndarray) (eps : option ndarray) : result ndarray :=
  match eps with
  | None => and_then (shape_at c 0) (fun m => Ok (ones m))
  | Some e => Ok e
  end.

Definition resolved_diff (x : ndarray) (d : option pyseq) : result pyseq :=
  match d with
  | None => and_then (shape_at x 1) (fun dim => Ok (PyTuple (repeat 0%Z dim)))
  | Some d => Ok (tuple d)
  end.

(** The compiled function inside a cached callable. *)
Definition underlying (f : callable) : func :=
  match f with Plain g | Fout g => g end.

Definition keys_are_tuples (o : RBF) : Prop :=
  forall k f, _cache o !! k = Some f -> is_tuple k = true.

Definition has_nan (a : ndarray) : bool := existsb PrimFloat.is_nan (data a).

Definition has_infinity (a : ndarray) : bool := existsb PrimFloat.is_infinity (data a).

(** The shape violations [__call__] checks for. *)
Definition shapes_valid (x c eps : ndarray) (d : pyseq) : bool :=
  match shape x, shape c, shape eps with
  | [_; dx], [m; dc], [e] => (dx =? dc)%nat && (e =? m)%nat && (len d =? dx)%nat
  | _, _, _ => false
  end.

(** *** The array steps of [__call__], one by one *)

(** [a[:,None,:]] on a two-dimensional array: a new axis of length 1 in
    the middle, the entries as they are. *)
Definition new_axis_middle (a : ndarray) : result ndarray :=
  match shape a with
  | [n; d] => Ok {| shape := [n; 1; d]; data := data a |}
  | _ => Raise IndexError
  end.

(** [a[None,:,:]] on a two-dimensional array: a new axis in front. *)
Definition new_axis_front (a : ndarray) : result ndarray :=
  match shape a with
  | [m; d] => Ok {| shape := [1; m; d]; data := data a |}
  | _ => Raise IndexError
  end.

(** [np.einsum('ijk->kij', a)]: entry (k,i,j) of the result is entry
    (i,j,k) of [a]. *)
Definition einsum_ijk_kij (a : ndarray) : result ndarray :=
  match shape a with
  | [ni; nj; nk] =>
      Ok {| shape := [nk; ni; nj];
            data :=
              flat_map (fun k =>
                flat_map (fun i =>
                  map (fun j => nth ((i * nj + j) * nk + k) (data a) 0%float) (seq 0 nj))
                  (seq 0 ni))
                (seq 0 nk) |}
  | _ => Raise (LibraryError "ValueError")
  end.

(** [tuple(a)]: the sub-arrays along the first axis. *)
Definition tuple_of_array (a : ndarray) : result (list ndarray) :=
  match shape a with
  | n :: rest =>
      Ok (map (fun q => {| shape := rest;
                           data := take (size_of rest) (drop (q * size_of rest) (data a)) |})
              (seq 0 n))
  | [] => Raise TypeError
  end.

(** *** The compiled expression, in the words of the specification *)

(** Step 2: the Euclidean distance between the point-coordinate vector
    and the center-coordinate vector. *)
Definition spec_distance (D : nat) : expr :=
  sqrt_ (fold_left (fun acc i => add_ acc (pow_ (sub_ (sym (x_ i)) (sym (c_ i))) 2))
                   (seq 0 D) (int_ 0)).

(** Step 3: for each axis [i] with [signature[i] = k > 0], [k]-fold
    differentiation with respect to the [i]-th point coordinate, the axes
    in order; an axis with [signature[i] = 0] is skipped. *)
Definition spec_differentiated (e0 : expr) (signature : list Z) : result expr :=
  fold_left
    (fun acc (axis : nat * Z) =>
       and_then acc (fun e =>
         if (0 <? snd axis)%Z
         then diff_ e (replicate (Z.to_nat (snd axis)) (x_ (fst axis)))
         else Ok e))
    (zip (seq 0 (length signature)) signature) (Ok e0).

(** Step 4, the limit: every point coordinate approaches the center
    coordinate of its axis, one axis at a time, in the axis order. *)
Definition spec_center_limit (e : expr) (D : nat) : result expr :=
  fold_left (fun acc i => and_then acc (fun e' => limit e' (x_ i) (sym (c_ i))))
            (seq 0 D) (Ok e).

(** Steps 2 to 4 with a tolerance: the two-branch piecewise expression. *)
Definition spec_compiled (expression : expr) (signature : list Z) (tol : float)
  : result expr :=
  let D := length signature in
  and_then (spec_differentiated (subs expression _R (spec_distance D)) signature)
    (fun differentiated =>
  and_then (spec_center_limit differentiated D)
    (fun at_center =>
  Ok (Piecewise (at_center, CondLt (spec_distance D) tol) (differentiated, CondTrue)))).

End Runs.

(** ** Concrete engines and arrays

    The objects the module is run on below, all over the reference
    engine. *)

Definition arr (s : list nat) (d : list float) : ndarray := {| shape := s; data := d |}.

Section Concrete.
#[local] Existing Instance Ref.reference.

(** [RBF(R, package)]: stored as [EPS*R]. *)
Definition phs1 (package : string) : RBF :=
  {| _expr := Ref.Mul (Ref.Var _EPS) (Ref.Var _R);
     _package := package; _tol := None; _cache := ∅ |}.

(** [RBF(1/R, 'numpy')]: stored as [1/(EPS*R)]. *)
Definition inverse : RBF :=
  {| _expr := Ref.Mul (Ref.Pow (Ref.Var _EPS) (-1)) (Ref.Pow (Ref.Var _R) (-1));
     _package := "numpy"; _tol := None; _cache := ∅ |}.

(** [RBF(R**2, 'numpy')]: stored as [EPS**2 * R**2]. *)
Definition phs_even : RBF :=
  {| _expr := Ref.Mul (Ref.Pow (Ref.Var _EPS) 2) (Ref.Pow (Ref.Var _R) 2);
     _package := "numpy"; _tol := None; _cache := ∅ |}.

(** Three points on the line, one center at the origin, shape 2. *)
Definition x3 : ndarray := arr [3; 1] [(-1)%float; 0%float; 1%float].
Definition c1 : ndarray := arr [1; 1] [0%float].
Definition eps2 : ndarray := arr [1] [2%float].

(** Two points and three centers in the plane. *)
Definition x22 : ndarray := arr [2; 2] [1%float; 2%float; 3%float; 4%float].
Definition c32 : ndarray :=
  arr [3; 2] [0%float; 0%float; 1%float; 2%float; 2%float; 2%float].

(** Three points and one center in a space of no dimension. *)
Definition x30 : ndarray := arr [3; 0] [].
Definition c10 : ndarray := arr [1; 0] [].

(** The object and the result a call leaves behind. *)
Definition world_after {A} (p : result A * world) : world :=
  snd p.

Definition value_of (p : result ndarray * world) : ndarray :=
  match fst p with
  | Ok a => a
  | Raise _ => arr [] []
  end.

(** [phs1 "numpy"] after one evaluation of the scenario: the cache holds
    the function of signature (0,), compiled with no tolerance. *)
Definition warmed : RBF :=
  self (world_after (__call__ x3 c1 (Some eps2) None (fresh (phs1 "numpy")))).

Definition untoleranced : callable :=
  Fout {| Ref.as_ufunc := false;
          Ref.fargs := [x_ 0; c_ 0; _EPS];
          Ref.fbody :=
            Ref.Mul (Ref.Var _EPS)
              (Ref.Sqrt (Ref.Pow (Ref.Add (Ref.Var (x_ 0))
                                          (Ref.Mul (Ref.Num (-1)) (Ref.Var (c_ 0)))) 2)) |}.

(** The distance to the center times the shape, in one dimension. *)
Definition scaled_distance : Ref.sexpr :=
  Ref.Mul (Ref.Var _EPS)
    (Ref.Sqrt (Ref.Pow (Ref.Add (Ref.Var (x_ 0))
                                (Ref.Mul (Ref.Num (-1)) (Ref.Var (c_ 0)))) 2)).

End Concrete.


(** ** How the methods run *)

Section Facts.
Context `{Sympy}.

Lemma tuple_of_tuple (d : pyseq) : is_tuple d = true -> tuple d = d.
Proof. destruct d; simpl; [reflexivity | discriminate]. Qed.

Lemma tuple_is_tuple (d : pyseq) : is_tuple (tuple d) = true.
Proof. reflexivity. Qed.

(** A callable changes nothing but the warnings shown. *)
Lemma call_callable_run (f : callable) (args : list ndarray) (w : world) :
  ignore_warnings w = true ->
  call_callable f args w = (callable_value f args, w).
Proof.
  intros Hi. destruct w as [o t i s]; simpl in Hi; subst i.
  destruct f as [g | fin]; simpl;
    unfold call_compiled, fout, fout_value, call_compiled, bind, warn, lift, ret; simpl.
  - destruct (call_func g args) as [r ws]; simpl. reflexivity.
  - destruct (call_func fin args) as [r ws]; simpl.
    destruct r as [out | ex]; simpl; [| reflexivity].
    destruct (first_arg args) as [x | ex]; simpl; [| reflexivity].
    destruct (last_arg args) as [eps | ex]; simpl; [| reflexivity].
    destruct out as [v | a]; simpl; [| reflexivity].
    destruct (shape_at x 0); simpl; [| reflexivity].
    destruct (shape_at eps 0); simpl; reflexivity.
Qed.

(** [add_to_cache], step by step. *)
Lemma add_to_cache_run (d : pyseq) (w : world) :
  add_to_cache d w =
  match symbolic (self w) (items d) with
  | Raise ex => (Raise ex, w)
  | Ok e =>
      match compile_with (_package (self w)) (compile_args (len d)) e with
      | None => (Ok tt, w)
      | Some r =>
          let w1 := logged w [EvCompile (_package (self w)) (compile_args (len d)) e] in
          match r with
          | Ok f => (Ok tt, stored w1 (tuple d) f)
          | Raise ex => (Raise ex, w1)
          end
      end
  end.
Proof.
  unfold add_to_cache, compile_with, bind, lift, get_self, cache_store, put_self, log, ret.
  change (len (tuple d)) with (len d). change (items (tuple d)) with (items d).
  destruct (symbolic (self w) (items d)) as [e | ex]; [| reflexivity].
  destruct (String.eqb (_package (self w)) "numpy") eqn:Hn.
  - apply String.eqb_eq in Hn. rewrite Hn. simpl.
    destruct (lambdify (compile_args (len d)) e); reflexivity.
  - destruct (String.eqb (_package (self w)) "cython") eqn:Hc; [| reflexivity].
    apply String.eqb_eq in Hc. rewrite Hc. simpl.
    destruct (ufuncify (compile_args (len d)) e); reflexivity.
Qed.

(** A cached signature: two look-ups and the call, nothing compiled, the
    object untouched. *)
Lemma call_cached_hit (d : pyseq) (args : list ndarray) (w : world) (f : callable) :
  is_tuple d = true ->
  _cache (self w) !! d = Some f ->
  call_cached d args w =
  (and_then (callable_value f args) _replace_nan,
   logged w [EvLookup d; EvLookup d; EvInvoke f args]).
Proof.
  intros Ht Hf.
  unfold call_cached, cache_contains, cache_getitem, catch_warnings_ignore, bind,
    get_self, log, ret, set_filter.
  rewrite Ht. simpl. rewrite Hf. simpl.
  try (rewrite bool_decide_eq_true_2 by eauto); simpl. try rewrite Hf. simpl.
  rewrite call_callable_run by reflexivity. simpl.
  unfold lift, logged. simpl. rewrite <- !app_assoc. simpl.
  destruct (callable_value f args) as [out | ex]; simpl; reflexivity.
Qed.

(** A signature that is not cached: one look-up, then [add_to_cache],
    then the cached call. *)
Lemma call_cached_miss (d : pyseq) (args : list ndarray) (w : world) :
  is_tuple d = true ->
  _cache (self w) !! d = None ->
  call_cached d args w =
  match symbolic (self w) (items d) with
  | Raise ex => (Raise ex, logged w [EvLookup d])
  | Ok e =>
      let ev := EvCompile (_package (self w)) (compile_args (len d)) e in
      match compile_with (_package (self w)) (compile_args (len d)) e with
      | None => (Raise KeyError, logged w [EvLookup d; EvLookup d])
      | Some (Raise ex) => (Raise ex, logged w [EvLookup d; ev])
      | Some (Ok f) =>
          (and_then (callable_value f args) _replace_nan,
           stored (logged w [EvLookup d; ev; EvLookup d; EvInvoke f args]) d f)
      end
  end.
Proof.
  intros Ht Hf.
  unfold call_cached at 1. unfold cache_contains at 1. rewrite Ht.
  unfold bind at 1. unfold bind at 1. unfold log at 1. unfold bind at 1.
  unfold bind at 1. unfold get_self at 1. unfold ret at 1.
  cbn [self trace fst snd]. rewrite Hf.
  rewrite bool_decide_eq_false_2 by (intros [? ?]; discriminate).
  cbn [negb]. rewrite add_to_cache_run. cbn [self logged trace].
  rewrite (tuple_of_tuple d Ht).
  destruct (symbolic (self w) (items d)) as [e | ex]; [| reflexivity].
  destruct (compile_with (_package (self w)) (compile_args (len d)) e) as [[f | ex] |].
  - cbn zeta.
    unfold catch_warnings_ignore, cache_getitem, bind, get_self, log, ret, set_filter.
    rewrite Ht. cbn. rewrite lookup_insert_eq. cbn.
    rewrite call_callable_run by reflexivity. cbn.
    unfold lift, logged, stored. cbn. rewrite <- !app_assoc. cbn.
    destruct (callable_value f args); reflexivity.
  - cbn. unfold logged. cbn. rewrite <- !app_assoc. reflexivity.
  - unfold catch_warnings_ignore, cache_getitem, bind, get_self, log, ret, set_filter, raise.
    rewrite Ht. cbn. rewrite Hf. cbn. unfold logged. cbn.
    rewrite <- !app_assoc. reflexivity.
Qed.

Lemma per_axis_points_2d (x : ndarray) (n d : nat) :
  shape x = [n; d] -> exists xs, per_axis_points x = Ok xs /\ length xs = d.
Proof.
  intros Hs. unfold per_axis_points. rewrite Hs. eexists; split; [reflexivity |].
  now rewrite length_map, length_seq.
Qed.

Lemma per_axis_centers_2d (c : ndarray) (m d : nat) :
  shape c = [m; d] -> exists cs, per_axis_centers c = Ok cs /\ length cs = d.
Proof.
  intros Hs. unfold per_axis_centers. rewrite Hs. eexists; split; [reflexivity |].
  now rewrite length_map, length_seq.
Qed.

Lemma shapes_valid_inv (x c eps : ndarray) (d : pyseq) :
  shapes_valid x c eps d = true ->
  exists n m dim, shape x = [n; dim] /\ shape c = [m; dim] /\ shape eps = [m]
                  /\ len d = dim.
Proof.
  unfold shapes_valid. intros Hv.
  destruct (shape x) as [| n [| dx [| ? ?]]]; try discriminate.
  destruct (shape c) as [| m [| dc [| ? ?]]]; try discriminate.
  destruct (shape eps) as [| e [| ? ?]]; try discriminate.
  apply andb_prop in Hv as [Hv Hl]. apply andb_prop in Hv as [Hd He].
  apply Nat.eqb_eq in Hd, He, Hl. subst. eauto 10.
Qed.

(** With well-shaped arguments [__call__] is its last part. *)
Lemma call_accepts (x c : ndarray) (eps : option ndarray) (d : option pyseq)
      (eps' : ndarray) (d' : pyseq) (w : world) :
  resolved_eps c eps = Ok eps' ->
  resolved_diff x d = Ok d' ->
  shapes_valid x c eps' d' = true ->
  __call__ x c eps d w = call_cached d' (call_args x c eps') w.
Proof.
  intros He Hd Hv.
  destruct (shapes_valid_inv _ _ _ _ Hv) as (n & m & dim & Hx & Hc & Hs & Hl).
  unfold __call__, call_args, per_axis_points, per_axis_centers.
  assert (Heps : (match eps with
                  | None => bind (lift (shape_at c 0)) (fun m0 => ret (ones m0))
                  | Some e => ret e
                  end) w = (Ok eps', w)).
  { destruct eps as [e |]; simpl in He.
    - now inversion He.
    - unfold bind, lift, ret. destruct (shape_at c 0); simpl in He; now inversion He. }
  assert (Hdiff : forall w0, (match d with
                  | None => bind (lift (shape_at x 1))
                              (fun dim0 => ret (PyTuple (repeat 0%Z dim0)))
                  | Some d0 => ret (tuple d0)
                  end) w0 = (Ok d', w0)).
  { intros w0. destruct d as [d0 |]; simpl in Hd.
    - now inversion Hd.
    - unfold bind, lift, ret. destruct (shape_at x 1); simpl in Hd; now inversion Hd. }
  unfold bind at 1. rewrite Heps. unfold bind at 1. rewrite Hdiff.
  unfold ndim, shape_at. rewrite Hx, Hc, Hs. cbn. rewrite Hl.
  unfold bind, lift. cbn. repeat (rewrite Nat.eqb_refl; cbn). reflexivity.
Qed.

(** With ill-shaped arguments it raises a ValueError and leaves the
    world as it found it. *)
Lemma call_rejects (x c : ndarray) (eps : option ndarray) (d : option pyseq)
      (eps' : ndarray) (d' : pyseq) (w : world) :
  resolved_eps c eps = Ok eps' ->
  resolved_diff x d = Ok d' ->
  ndim eps' <> 0 ->
  shapes_valid x c eps' d' = false ->
  exists why, __call__ x c eps d w = (Raise (ValueError why), w).
Proof.
  intros He Hd Hn Hv.
  unfold __call__.
  assert (Heps : (match eps with
                  | None => bind (lift (shape_at c 0)) (fun m0 => ret (ones m0))
                  | Some e => ret e
                  end) w = (Ok eps', w)).
  { destruct eps as [e |]; simpl in He.
    - now inversion He.
    - unfold bind, lift, ret. destruct (shape_at c 0); simpl in He; now inversion He. }
  assert (Hdiff : forall w0, (match d with
                  | None => bind (lift (shape_at x 1))
                              (fun dim0 => ret (PyTuple (repeat 0%Z dim0)))
                  | Some d0 => ret (tuple d0)
                  end) w0 = (Ok d', w0)).
  { intros w0. destruct d as [d0 |]; simpl in Hd.
    - now inversion Hd.
    - unfold bind, lift, ret. destruct (shape_at x 1); simpl in Hd; now inversion Hd. }
  unfold bind at 1. rewrite Heps. unfold bind at 1. rewrite Hdiff.
  unfold shapes_valid in Hv. unfold ndim in *. unfold shape_at, raise, bind, lift.
  destruct (shape x) as [| n [| dx [| ? ?]]]; cbn; eauto.
  destruct (shape c) as [| m [| dc [| ? ?]]]; cbn; eauto.
  destruct (dx =? dc)%nat eqn:E1; cbn; eauto.
  destruct (shape eps') as [| e [| ? ?]]; cbn; try (exfalso; apply Hn; reflexivity); eauto.
  cbn in Hv.
  destruct (e =? m)%nat eqn:E2; cbn in *; eauto.
  rewrite Hv. cbn. eauto.
Qed.

Lemma resolved_diff_is_tuple (x : ndarray) (d : option pyseq) (d' : pyseq) :
  resolved_diff x d = Ok d' -> is_tuple d' = true.
Proof.
  destruct d as [d0 |]; simpl.
  - intros Hd; inversion Hd; reflexivity.
  - destruct (shape_at x 1); simpl; intros Hd; inversion Hd; reflexivity.
Qed.

(** The defaults are worked out first, before any check. *)
Lemma call_defaults (x c : ndarray) (eps : option ndarray) (d : option pyseq) (w : world) :
  __call__ x c eps d w =
  match resolved_eps c eps with
  | Raise ex => (Raise ex, w)
  | Ok eps' =>
      match resolved_diff x d with
      | Raise ex => (Raise ex, w)
      | Ok d' => __call__ x c (Some eps') (Some d') w
      end
  end.
Proof.
  unfold __call__, bind, lift, ret, raise, resolved_eps, resolved_diff, and_then.
  destruct eps as [e |], d as [d0 |]; cbn;
    repeat (match goal with
            | |- context [shape_at ?a ?i] => destruct (shape_at a i); cbn
            end);
    reflexivity.
Qed.

(** Explicit arguments either pass every check or are refused with the
    world untouched. *)
Lemma call_explicit_cases (x c eps : ndarray) (d : pyseq) (w : world) :
  (exists ex, __call__ x c (Some eps) (Some d) w = (Raise ex, w))
  \/ shapes_valid x c eps (tuple d) = true.
Proof.
  destruct (shapes_valid x c eps (tuple d)) eqn:Hv; [now right | left].
  destruct (Nat.eq_dec (ndim eps) 0) as [H0 | Hn].
  - unfold __call__, ndim, shape_at, raise, bind, lift, ret in *.
    destruct (shape eps) as [| ? ?]; [| discriminate].
    destruct (shape x) as [| n [| dx [| ? ?]]]; cbn; eauto.
    destruct (shape c) as [| m [| dc [| ? ?]]]; cbn; eauto.
    destruct (dx =? dc)%nat; cbn; eauto.
  - destruct (call_rejects x c (Some eps) (Some d) eps (tuple d) w) as [why Hw];
      try reflexivity; try assumption.
    eauto.
Qed.

(** Every call is refused with the world untouched, or is the cached call
    on a tuple. *)
Lemma call_cases (x c : ndarray) (eps : option ndarray) (d : option pyseq) (w : world) :
  (exists ex, __call__ x c eps d w = (Raise ex, w))
  \/ (exists eps' d',
        resolved_eps c eps = Ok eps' /\ resolved_diff x d = Ok d'
        /\ is_tuple d' = true
        /\ shapes_valid x c eps' d' = true
        /\ __call__ x c eps d w = call_cached d' (call_args x c eps') w).
Proof.
  rewrite call_defaults.
  destruct (resolved_eps c eps) as [eps' |] eqn:He; [| left; eauto].
  destruct (resolved_diff x d) as [d' |] eqn:Hd; [| left; eauto].
  pose proof (resolved_diff_is_tuple _ _ _ Hd) as Ht.
  destruct (call_explicit_cases x c eps' d' w) as [Hr | Hv]; [now left | right].
  rewrite (tuple_of_tuple _ Ht) in Hv.
  exists eps', d'. repeat split; try assumption.
  apply call_accepts; [reflexivity | | assumption].
  simpl. now rewrite (tuple_of_tuple _ Ht).
Qed.

(** The cached call on a tuple, whatever the cache holds. *)
Lemma call_cached_cases (d : pyseq) (args : list ndarray) (w : world) :
  is_tuple d = true ->
  let '(r, w') := call_cached d args w in
  ignore_warnings w' = ignore_warnings w /\ shown w' = shown w
  /\ _expr (self w') = _expr (self w) /\ _package (self w') = _package (self w)
  /\ _tol (self w') = _tol (self w)
  /\ (_cache (self w') = _cache (self w)
      \/ exists f, _cache (self w) !! d = None /\ _cache (self w') = <[d := f]> (_cache (self w))).
Proof.
  intros Ht.
  destruct (_cache (self w) !! d) as [f |] eqn:Hf.
  - rewrite (call_cached_hit d args w f Ht Hf). cbn. auto 10.
  - rewrite (call_cached_miss d args w Ht Hf).
    destruct (symbolic (self w) (items d)) as [e | ex]; [| cbn; auto 10].
    destruct (compile_with _ _ e) as [[f | ex] |]; cbn; eauto 10.
Qed.

Lemma compilations_app (a b : list event) :
  compilations (a ++ b) = compilations a + compilations b.
Proof. unfold compilations. now rewrite List.filter_app, length_app. Qed.

(** A successful call on a cached signature. *)
Lemma call_ok_hit (x c : ndarray) (eps : option ndarray) (d : option pyseq)
      (d' : pyseq) (f : callable) (w w' : world) (out : ndarray) :
  resolved_diff x d = Ok d' ->
  _cache (self w) !! d' = Some f ->
  __call__ x c eps d w = (Ok out, w') ->
  exists eps',
    resolved_eps c eps = Ok eps'
    /\ shapes_valid x c eps' d' = true
    /\ and_then (callable_value f (call_args x c eps')) _replace_nan = Ok out
    /\ w' = logged w [EvLookup d'; EvLookup d'; EvInvoke f (call_args x c eps')].
Proof.
  intros Hd Hf Hcall.
  destruct (call_cases x c eps d w) as [[ex Hr] | (eps' & d2 & He & Hd2 & Ht & Hv & Hc)].
  - rewrite Hr in Hcall. discriminate.
  - rewrite Hd in Hd2. inversion Hd2; subst d2.
    rewrite Hc, (call_cached_hit d' _ w f Ht Hf) in Hcall.
    inversion Hcall. exists eps'. auto.
Qed.

(** A successful call on a signature that is not cached: the function is
    compiled once, stored under the signature and called. *)
Lemma call_ok_miss (x c : ndarray) (eps : option ndarray) (d : option pyseq)
      (d' : pyseq) (w w' : world) (out : ndarray) :
  resolved_diff x d = Ok d' ->
  _cache (self w) !! d' = None ->
  __call__ x c eps d w = (Ok out, w') ->
  exists eps' e f,
    resolved_eps c eps = Ok eps'
    /\ shapes_valid x c eps' d' = true
    /\ symbolic (self w) (items d') = Ok e
    /\ compile_with (_package (self w)) (compile_args (len d')) e = Some (Ok f)
    /\ and_then (callable_value f (call_args x c eps')) _replace_nan = Ok out
    /\ w' = stored (logged w [EvLookup d';
                              EvCompile (_package (self w)) (compile_args (len d')) e;
                              EvLookup d';
                              EvInvoke f (call_args x c eps')]) d' f.
Proof.
  intros Hd Hf Hcall.
  destruct (call_cases x c eps d w) as [[ex Hr] | (eps' & d2 & He & Hd2 & Ht & Hv & Hc)].
  - rewrite Hr in Hcall. discriminate.
  - rewrite Hd in Hd2. inversion Hd2; subst d2.
    rewrite Hc, (call_cached_miss d' _ w Ht Hf) in Hcall.
    destruct (symbolic (self w) (items d')) as [e | ex]; [| discriminate].
    destruct (compile_with _ _ e) as [[f | ex] |] eqn:Hcw; try discriminate.
    cbn zeta in Hcall. inversion Hcall.
    exists eps', e, f. auto 10.
Qed.


(** A successful call ends with the call of the cached function; what it
    returns is that function's value with [_replace_nan] applied. *)
Lemma call_ok_invokes (x c : ndarray) (eps : option ndarray) (d : option pyseq)
      (w w' : world) (out : ndarray) :
  __call__ x c eps d w = (Ok out, w') ->
  exists eps' d' f,
    resolved_eps c eps = Ok eps' /\ resolved_diff x d = Ok d'
    /\ shapes_valid x c eps' d' = true
    /\ _cache (self w') !! d' = Some f
    /\ last (trace w') = Some (EvInvoke f (call_args x c eps'))
    /\ and_then (callable_value f (call_args x c eps')) _replace_nan = Ok out
    /\ shown w' = shown w /\ ignore_warnings w' = ignore_warnings w.
Proof.
  intros Hcall.
  destruct (call_cases x c eps d w) as [[ex Hr] | (eps' & d' & He & Hd & Ht & Hv & _)].
  { rewrite Hr in Hcall. discriminate. }
  exists eps', d'.
  destruct (_cache (self w) !! d') as [f |] eqn:Hf.
  - destruct (call_ok_hit x c eps d d' f w w' out Hd Hf Hcall) as (eps2 & He2 & _ & Hr & ->).
    rewrite He in He2. inversion He2; subst eps2.
    exists f. repeat split; try assumption.
    cbn. rewrite last_app. reflexivity.
  - destruct (call_ok_miss x c eps d d' w w' out Hd Hf Hcall)
      as (eps2 & e & f & He2 & _ & _ & _ & Hr & ->).
    rewrite He in He2. inversion He2; subst eps2.
    exists f. repeat split; try assumption.
    + cbn. apply lookup_insert_eq.
    + cbn. rewrite last_app. reflexivity.
Qed.

Lemma valid_package_cases (package : string) :
  valid_package package = true -> package = "cython"%string \/ package = "numpy"%string.
Proof.
  unfold valid_package. intros Hp. apply bool_decide_eq_true_1 in Hp.
  apply list_elem_of_In in Hp. simpl in Hp. intuition auto.
Qed.

Lemma compile_with_valid (package : string) (args : list symbol) (e : expr) :
  valid_package package = true -> exists r, compile_with package args e = Some r.
Proof.
  intros Hp. destruct (valid_package_cases _ Hp) as [-> | ->]; cbn; eauto.
Qed.

Lemma differentiate_app (e : expr) (l1 l2 : list (symbol * Z)) :
  differentiate e (l1 ++ l2) = and_then (differentiate e l1) (fun e' => differentiate e' l2).
Proof.
  revert e. induction l1 as [| [xi order] l1 IH]; intros e; cbn; [reflexivity |].
  destruct (order =? 0)%Z; [apply IH |].
  destruct (diff_ e _); [apply IH | reflexivity].
Qed.

(** The limits are taken one axis after the other, in the order of the
    list. *)
Lemma limits_app (e : expr) (l1 l2 : list (symbol * symbol)) :
  limits e (l1 ++ l2) = and_then (limits e l1) (fun e' => limits e' l2).
Proof.
  revert e. induction l1 as [| [xi ci] l1 IH]; intros e; cbn; [reflexivity |].
  destruct (limit e xi (sym ci)); [apply IH | reflexivity].
Qed.

Lemma limits_snoc (e : expr) (l : list (symbol * symbol)) (xi ci : symbol) :
  limits e (l ++ [(xi, ci)]) = and_then (limits e l) (fun e' => limit e' xi (sym ci)).
Proof.
  rewrite limits_app. destruct (limits e l) as [e' |]; cbn; [| reflexivity].
  destruct (limit e' xi (sym ci)); reflexivity.
Qed.


(** ** Construction *)

(** C3: construction from an expression that does not depend on the
    radius symbol fails with the ValueError of [__init__]; an expression
    that depends on the radius symbol but not on the shape symbol is
    stored with the radius symbol replaced by shape*radius; an expression
    that depends on both is stored unchanged.  (A package name that is
    neither cython nor numpy makes construction fail later, in
    [set_package].) *)
Theorem init_normalizes (e : expr) (package : string) (tol : option float) :
  (has e _R = false ->
   __init__ e package tol = Raise (ValueError NotAFunctionOfR))
  /\ (has e _R = true -> has e _EPS = false -> valid_package package = true ->
      __init__ e package tol =
      Ok {| _expr := subs e _R (mul_ (sym _EPS) (sym _R));
            _package := package; _tol := tol; _cache := ∅ |})
  /\ (has e _R = true -> has e _EPS = true -> valid_package package = true ->
      __init__ e package tol =
      Ok {| _expr := e; _package := package; _tol := tol; _cache := ∅ |}).
Proof.
  unfold __init__, normalize, set_package, clear_cache, set_tol.
  repeat split.
  - intros HR. now rewrite HR.
  - intros HR HE HP. now rewrite HR, HE, HP.
  - intros HR HE HP. now rewrite HR, HE, HP.
Qed.

(** ** The derivative specification *)

Lemma add_to_cache_of_list (l : list Z) (w : world) :
  add_to_cache (PyList l) w = add_to_cache (PyTuple l) w.
Proof. reflexivity. Qed.

Lemma stored_keys_are_tuples (w : world) (d : pyseq) (f : callable) :
  is_tuple d = true -> keys_are_tuples (self w) -> keys_are_tuples (self (stored w d f)).
Proof.
  intros Ht Hk k g. cbn. rewrite lookup_insert.
  destruct (decide (d = k)) as [-> | Hne]; [intros _; exact Ht | apply Hk].
Qed.

Lemma add_to_cache_keys (d : pyseq) (w : world) :
  keys_are_tuples (self w) -> keys_are_tuples (self (snd (add_to_cache d w))).
Proof.
  intros Hk. rewrite add_to_cache_run.
  destruct (symbolic (self w) (items d)) as [e | ex]; [| exact Hk].
  destruct (compile_with _ _ e) as [[f | ex] |]; cbn [snd]; try exact Hk.
  apply (stored_keys_are_tuples (logged w _) (tuple d) f (tuple_is_tuple d)). exact Hk.
Qed.

Lemma call_keys (x c : ndarray) (eps : option ndarray) (d : option pyseq) (w : world) :
  keys_are_tuples (self w) -> keys_are_tuples (self (snd (__call__ x c eps d w))).
Proof.
  intros Hk.
  destruct (call_cases x c eps d w) as [[ex Hr] | (eps' & d' & _ & _ & Ht & _ & Hc)].
  - now rewrite Hr.
  - rewrite Hc. pose proof (call_cached_cases d' (call_args x c eps') w Ht) as Hcc.
    destruct (call_cached d' (call_args x c eps') w) as [r w'].
    destruct Hcc as (_ & _ & _ & _ & _ & [Hsame | (f & _ & Hins)]); cbn [snd];
      intros k g; rewrite ?Hsame, ?Hins.
    + apply Hk.
    + rewrite lookup_insert.
      destruct (decide (d' = k)) as [-> | Hne]; [intros _; exact Ht | apply Hk].
Qed.

(** C10: the derivative specification is turned into a tuple before any
    use, in [__call__] and in [add_to_cache]: a list gives what the tuple
    of the same entries gives, result and object alike, and the keys of
    the cache stay tuples through both methods. *)
Theorem diff_is_coerced_to_a_tuple (l : list Z) (x c : ndarray)
        (eps : option ndarray) (w : world) :
  __call__ x c eps (Some (PyList l)) w = __call__ x c eps (Some (PyTuple l)) w
  /\ add_to_cache (PyList l) w = add_to_cache (PyTuple l) w
  /\ (keys_are_tuples (self w) ->
      forall d : pyseq,
        keys_are_tuples (self (snd (add_to_cache d w)))
        /\ keys_are_tuples (self (snd (__call__ x c eps (Some d) w)))).
Proof.
  split; [| split].
  - reflexivity.
  - apply add_to_cache_of_list.
  - intros Hk d. split; [now apply add_to_cache_keys | now apply call_keys].
Qed.

(** ** Validation *)

(** C2: when [x] has fewer than two dimensions and [diff] is left out, the
    call is refused with an IndexError, not a ValueError: [x.shape[1]]
    raises while the default of [diff] is worked out, before the check
    that would raise the ValueError.  Nothing has been looked up, compiled
    or called. *)
Theorem default_diff_precedes_the_checks
        (x c : ndarray) (eps : option ndarray) (eps' : ndarray) (w : world) :
  resolved_eps c eps = Ok eps' ->
  ndim x < 2 ->
  __call__ x c eps None w = (Raise IndexError, w).
Proof.
  intros He Hx. rewrite call_defaults, He.
  unfold resolved_diff, shape_at, ndim in *.
  destruct (shape x !! 1) as [dim |] eqn:Hl; [| reflexivity].
  apply lookup_lt_Some in Hl. lia.
Qed.

(** The checks do their work when [eps] and [diff] are given (or their
    defaults can be worked out) and [eps] is not zero-dimensional: a
    shape violation is a ValueError, and nothing has been looked up,
    compiled or called. *)
Lemma shape_violation_is_a_value_error (x c : ndarray) (eps : option ndarray)
      (d : option pyseq) (eps' : ndarray) (d' : pyseq) (w : world) :
  resolved_eps c eps = Ok eps' ->
  resolved_diff x d = Ok d' ->
  ndim eps' <> 0 ->
  shapes_valid x c eps' d' = false ->
  exists why, __call__ x c eps d w = (Raise (ValueError why), w).
Proof. apply call_rejects. Qed.

(** ** The function cache *)

(** C1, as the code has it: [set_tol] and [set_package] leave the cache as
    it is, so the next evaluation of a cached signature calls the function
    that was compiled under the earlier policy and compiles nothing.  The
    cache is emptied by [clear_cache] only, which changes nothing else of
    the object; after it every evaluation that succeeds has compiled its
    function anew: from the expression of the signature under the
    tolerance then in effect, with the compiler of the package then in
    effect, and it is that function it stores and calls. *)
Theorem policy_setters_keep_the_cache (o o2 : RBF) (tol : option float) (package : string) :
  o2 = set_tol o tol \/ set_package o package = Ok o2 ->
  _cache o2 = _cache o
  /\ (forall x c eps d d' f w w' out,
        resolved_diff x d = Ok d' ->
        _cache o !! d' = Some f ->
        self w = o2 ->
        __call__ x c eps d w = (Ok out, w') ->
        exists args,
          w' = logged w [EvLookup d'; EvLookup d'; EvInvoke f args]
          /\ compilations (trace w') = compilations (trace w))
  /\ _cache (clear_cache o2) = ∅
  /\ (forall x c eps d w w' out,
        self w = clear_cache o2 ->
        __call__ x c eps d w = (Ok out, w') ->
        exists d' e f args,
          resolved_diff x d = Ok d'
          /\ symbolic o2 (items d') = Ok e
          /\ compile_with (_package o2) (compile_args (len d')) e = Some (Ok f)
          /\ w' = stored (logged w [EvLookup d';
                                    EvCompile (_package o2) (compile_args (len d')) e;
                                    EvLookup d';
                                    EvInvoke f args]) d' f
          /\ compilations (trace w') = S (compilations (trace w)))
  /\ (_expr (clear_cache o2) = _expr o2
      /\ _package (clear_cache o2) = _package o2
      /\ _tol (clear_cache o2) = _tol o2)
  /\ (o2 = set_tol o tol ->
      _tol o2 = tol /\ _package o2 = _package o /\ _expr o2 = _expr o)
  /\ (set_package o package = Ok o2 ->
      _package o2 = package /\ _tol o2 = _tol o /\ _expr o2 = _expr o).
Proof.
  intros Ho2.
  assert (Hc : _cache o2 = _cache o).
  { destruct Ho2 as [-> | Hp]; [reflexivity |].
    unfold set_package in Hp. destruct (valid_package package); [| discriminate].
    now inversion Hp. }
  split; [exact Hc |]. split; [| split; [reflexivity |]].
  - intros x c eps d d' f w w' out Hd Hf Hw Hcall.
    rewrite <- Hc, <- Hw in Hf.
    destruct (call_ok_hit _ _ _ _ _ _ _ _ _ Hd Hf Hcall) as (eps' & _ & _ & _ & ->).
    eexists; split; [reflexivity |].
    unfold logged, stored; cbn [trace]. rewrite compilations_app.
    unfold compilations; cbn. lia.
  - split; [| split; [| split]].
    + intros x c eps d w w' out Hw Hcall.
      destruct (call_cases x c eps d w) as [[ex Hr] | (eps' & d' & He & Hd & Ht & Hv & _)].
      { rewrite Hr in Hcall. discriminate. }
      assert (Hf : _cache (self w) !! d' = None) by (rewrite Hw; apply lookup_empty).
      destruct (call_ok_miss _ _ _ _ _ _ _ _ Hd Hf Hcall)
        as (eps2' & e & f & _ & _ & Hs & Hcw & _ & ->).
      rewrite Hw in Hs, Hcw.
      exists d', e, f, (call_args x c eps2').
      split; [exact Hd |]. split; [exact Hs |]. split; [exact Hcw |].
      split; [now rewrite Hw |].
      unfold logged, stored; cbn [trace]. rewrite compilations_app.
      unfold compilations; cbn. lia.
    + repeat split.
    + intros ->. repeat split.
    + intros Hp. unfold set_package in Hp.
      destruct (valid_package package); [| discriminate].
      inversion Hp. repeat split.
Qed.

(** C4: on one object, with no cache clear in between, a signature, then
    another one, then the first again: two compilations, not three.  The
    third call compiles nothing, calls the function the first call stored
    and returns what the first call returned; the two signatures have
    entries of their own. *)
Theorem repeated_signature_compiles_once
        (da db : pyseq) (xa ca xb cb : ndarray) (ea eb : option ndarray)
        (w0 w1 w2 w3 : world) (r1 r2 r3 : ndarray) :
  tuple da <> tuple db ->
  _cache (self w0) !! tuple da = None ->
  _cache (self w0) !! tuple db = None ->
  __call__ xa ca ea (Some da) w0 = (Ok r1, w1) ->
  __call__ xb cb eb (Some db) w1 = (Ok r2, w2) ->
  __call__ xa ca ea (Some da) w2 = (Ok r3, w3) ->
  compilations (trace w3) = 2 + compilations (trace w0)
  /\ compilations (trace w3) = compilations (trace w2)
  /\ r3 = r1
  /\ exists fa fb,
       _cache (self w1) !! tuple da = Some fa
       /\ _cache (self w3) !! tuple da = Some fa
       /\ _cache (self w3) !! tuple db = Some fb
       /\ exists args, last (trace w3) = Some (EvInvoke fa args).
Proof.
  intros Hne Ha Hb H1 H2 H3.
  destruct (call_ok_miss xa ca ea (Some da) (tuple da) w0 w1 r1 eq_refl Ha H1)
    as (epa & e1 & fa & Hea & _ & _ & _ & Hr1 & ->).
  assert (Hb1 : _cache (self (stored (logged w0
                   [EvLookup (tuple da);
                    EvCompile (_package (self w0)) (compile_args (len (tuple da))) e1;
                    EvLookup (tuple da);
                    EvInvoke fa (call_args xa ca epa)]) (tuple da) fa)) !! tuple db = None).
  { cbn. rewrite lookup_insert_ne by exact Hne. exact Hb. }
  destruct (call_ok_miss xb cb eb (Some db) (tuple db) _ w2 r2 eq_refl Hb1 H2)
    as (epb & e2 & fb & _ & _ & _ & _ & _ & ->).
  match type of H3 with __call__ _ _ _ _ ?w = _ => set (w2 := w) in * end.
  assert (Ha2 : _cache (self w2) !! tuple da = Some fa).
  { subst w2. cbn. rewrite lookup_insert_ne by (intros E; apply Hne; now symmetry).
    apply lookup_insert_eq. }
  destruct (call_ok_hit xa ca ea (Some da) (tuple da) fa _ w3 r3 eq_refl Ha2 H3)
    as (epa' & Hea' & _ & Hr3 & ->).
  rewrite Hea in Hea'. inversion Hea'; subst epa'.
  rewrite Hr1 in Hr3. inversion Hr3; subst r3.
  subst w2. unfold logged, stored; cbn [trace self _cache].
  rewrite !compilations_app.
  repeat split; try (unfold compilations; cbn; lia).
  exists fa, fb. repeat split.
  - apply lookup_insert_eq.
  - rewrite lookup_insert_ne by (intros E; apply Hne; now symmetry).
    apply lookup_insert_eq.
  - apply lookup_insert_eq.
  - eexists. rewrite last_app. reflexivity.
Qed.

(** ** Compilation *)

Lemma fold_left_raise {A B} (step : result A -> B -> result A) (l : list B) (ex : exn) :
  (forall b, step (Raise ex) b = Raise ex) -> fold_left step l (Raise ex) = Raise ex.
Proof.
  intros Hstep. induction l as [| b l IH]; cbn; [reflexivity |]. now rewrite Hstep.
Qed.

(** C5: with a tolerance set and a signature of non-negative orders, the
    expression [add_to_cache] builds is the one the specification
    describes: the stored expression with the Euclidean distance put in
    for the radius, differentiated axis by axis; its limit as each point
    coordinate approaches the center coordinate, taken one axis at a time
    in the same axis order, as first branch under the condition that the
    distance is below the tolerance; the differentiated expression as
    second branch.  That expression is what the compiler is invoked on,
    and when the library refuses a derivative or a limit nothing is
    compiled. *)
Theorem tolerance_compiles_a_piecewise (o : RBF) (d : pyseq) (tol : float) (w : world) :
  self w = o ->
  _tol o = Some tol ->
  valid_package (_package o) = true ->
  Forall (fun k => (0 <= k)%Z) (items d) ->
  symbolic o (items d) = spec_compiled (_expr o) (items d) tol
  /\ (forall piecewise,
        spec_compiled (_expr o) (items d) tol = Ok piecewise ->
        trace (snd (add_to_cache d w))
        = trace w ++ [EvCompile (_package o) (compile_args (len d)) piecewise])
  /\ (forall ex,
        spec_compiled (_expr o) (items d) tol = Raise ex ->
        add_to_cache d w = (Raise ex, w)).
Proof.
  intros Hw Htol Hp Hd.
  (* the distance of the code is the distance of the specification *)
  assert (Hdist : forall D, r_sym D = spec_distance D).
  { intros D. unfold r_sym, spec_distance, x_sym, c_sym. f_equal.
    generalize (int_ 0). generalize 0 as a.
    induction D as [| D IH]; intros a acc; cbn; [reflexivity |]. apply IH. }
  (* the loop of line 278 differentiates axis by axis, in order *)
  assert (Hdiff : forall (l : list Z) (a : nat) (e : expr),
             Forall (fun k => (0 <= k)%Z) l ->
             differentiate e (zip (map x_ (seq a (length l))) l)
             = fold_left
                 (fun acc (axis : nat * Z) =>
                    and_then acc (fun e' =>
                      if (0 <? snd axis)%Z
                      then diff_ e' (replicate (Z.to_nat (snd axis)) (x_ (fst axis)))
                      else Ok e'))
                 (zip (seq a (length l)) l) (Ok e)).
  { intros l a e Hl. revert a e.
    induction Hl as [| k l Hk Hl IH]; intros a e; cbn; [reflexivity |].
    destruct (k =? 0)%Z eqn:Hz.
    - apply Z.eqb_eq in Hz. subst k. cbn. apply IH.
    - apply Z.eqb_neq in Hz.
      assert (Hpos : (0 <? k)%Z = true) by (apply Z.ltb_lt; lia).
      rewrite Hpos. destruct (diff_ e (replicate (Z.to_nat k) (x_ a))) as [e' | ex].
      + apply IH.
      + symmetry. apply fold_left_raise. reflexivity. }
  (* the loop of line 290 takes the limit of every axis, in order *)
  assert (Hlim : forall (n a : nat) (e : expr),
             limits e (zip (map x_ (seq a n)) (map c_ (seq a n)))
             = fold_left (fun acc i => and_then acc (fun e' => limit e' (x_ i) (sym (c_ i))))
                         (seq a n) (Ok e)).
  { intros n. induction n as [| n IH]; intros a e; cbn; [reflexivity |].
    destruct (limit e (x_ a) (sym (c_ a))) as [e' | ex].
    - apply IH.
    - symmetry. apply fold_left_raise. reflexivity. }
  assert (Hs : symbolic o (items d) = spec_compiled (_expr o) (items d) tol).
  { unfold symbolic, spec_compiled, spec_differentiated, spec_center_limit.
    rewrite Htol, Hdist. unfold x_sym, c_sym.
    rewrite (Hdiff (items d) 0 _ Hd).
    match goal with
    | |- match ?t with _ => _ end = _ => destruct t as [e | ex]; [| reflexivity]
    end.
    cbn [and_then]. rewrite Hlim.
    match goal with
    | |- match ?t with _ => _ end = _ => destruct t as [ce | ex]; reflexivity
    end. }
  split; [exact Hs |]. split.
  - intros piecewise Hpw. rewrite add_to_cache_run, Hw, Hs, Hpw.
    destruct (compile_with_valid (_package o) (compile_args (len d)) piecewise Hp) as [r ->].
    destruct r; reflexivity.
  - intros ex Hex. rewrite add_to_cache_run, Hw, Hs, Hex. reflexivity.
Qed.

(** C9, as the code has it: a negative order is not checked.  It makes the
    tuple of differentiation variables empty, so that the derivative of
    that axis is asked of the library with no variable; if the library
    refuses, [add_to_cache] fails with the library's exception, nothing
    compiled and nothing stored, and if it answers, the loop goes on with
    the answer. *)
Theorem negative_order_is_left_to_the_library
        (o : RBF) (d : pyseq) (pre post : list Z) (order : Z) (e1 : expr) (w : world) :
  self w = o ->
  items d = pre ++ order :: post ->
  (order < 0)%Z ->
  differentiate (subs (_expr o) _R (r_sym (len d)))
                (zip (take (length pre) (x_sym (len d))) pre) = Ok e1 ->
  (forall ex, diff_ e1 [] = Raise ex -> add_to_cache d w = (Raise ex, w))
  /\ (forall e2, diff_ e1 [] = Ok e2 ->
        differentiate (subs (_expr o) _R (r_sym (len d))) (zip (x_sym (len d)) (items d))
        = differentiate e2 (zip (drop (S (length pre)) (x_sym (len d))) post)).
Proof.
  intros Hw Hd Hneg Hpre.
  assert (Hlen : length pre < length (x_sym (len d))).
  { unfold x_sym, len. rewrite length_map, length_seq, Hd, length_app. cbn. lia. }
  destruct (lookup_lt_is_Some_2 _ _ Hlen) as [xi Hxi].
  assert (Hsplit : zip (x_sym (len d)) (items d)
                   = zip (take (length pre) (x_sym (len d))) pre
                         ++ (xi, order) :: zip (drop (S (length pre)) (x_sym (len d))) post).
  { rewrite Hd.
    rewrite <- (take_drop (length pre) (x_sym (len d))) at 1.
    rewrite zip_with_app by (rewrite length_take; lia).
    f_equal. rewrite (drop_S _ _ _ Hxi). reflexivity. }
  assert (Hstep : differentiate (subs (_expr o) _R (r_sym (len d)))
                                (zip (x_sym (len d)) (items d))
                  = match diff_ e1 [] with
                    | Ok e2 => differentiate e2
                                 (zip (drop (S (length pre)) (x_sym (len d))) post)
                    | Raise ex => Raise ex
                    end).
  { rewrite Hsplit, differentiate_app, Hpre. cbn.
    assert (Hz : (order =? 0)%Z = false) by (apply Z.eqb_neq; lia).
    rewrite Hz. replace (Z.to_nat order) with 0 by lia. reflexivity. }
  split.
  - intros ex Hex. rewrite add_to_cache_run, Hw. unfold symbolic. fold (len d).
    rewrite Hstep, Hex. reflexivity.
  - intros e2 He2. rewrite Hstep, He2. reflexivity.
Qed.

(** ** The evaluation result *)

Lemma replace_nan_spec (v : pyval) (out : ndarray) :
  _replace_nan v = Ok out ->
  exists raw, v = Array raw /\ shape out = shape raw
    /\ data out = map (fun y => if PrimFloat.is_nan y then 0%float else y) (data raw).
Proof.
  destruct v as [y | raw]; cbn; [discriminate |].
  intros Hr. inversion Hr. eauto.
Qed.

Lemma replace_nan_has_no_nan (l : list float) :
  existsb PrimFloat.is_nan (map (fun y => if PrimFloat.is_nan y then 0%float else y) l)
  = false.
Proof.
  induction l as [| y l IH]; cbn; [reflexivity |].
  rewrite IH, orb_false_r.
  destruct (PrimFloat.is_nan y) eqn:Hy; [reflexivity | exact Hy].
Qed.

(** C6, as the code has it: in every evaluation that succeeds, the array
    returned is the raw result of the compiled function with each NaN
    entry replaced by 0.0, so it holds no NaN; every other entry, the
    infinities among them, is returned as it is; and no warning issued
    during the numeric evaluation reaches the caller. *)
Theorem nan_entries_become_zero (x c : ndarray) (eps : option ndarray) (d : option pyseq)
        (w w' : world) (out : ndarray) :
  __call__ x c eps d w = (Ok out, w') ->
  has_nan out = false
  /\ (exists f args raw,
        last (trace w') = Some (EvInvoke f args)
        /\ callable_value f args = Ok (Array raw)
        /\ shape out = shape raw
        /\ data out = map (fun y => if PrimFloat.is_nan y then 0%float else y) (data raw)
        /\ forall i y, data raw !! i = Some y -> PrimFloat.is_nan y = false ->
                       data out !! i = Some y)
  /\ shown w' = shown w
  /\ ignore_warnings w' = ignore_warnings w.
Proof.
  intros Hcall.
  destruct (call_ok_invokes _ _ _ _ _ _ _ Hcall)
    as (eps' & d' & f & _ & _ & _ & _ & Hlast & Hval & Hshown & Hign).
  destruct (callable_value f (call_args x c eps')) as [v | ex] eqn:Hv; [| discriminate].
  cbn in Hval. destruct (replace_nan_spec _ _ Hval) as (raw & -> & Hshape & Hdata).
  split; [| split; [| split; assumption]].
  - unfold has_nan. rewrite Hdata. apply replace_nan_has_no_nan.
  - exists f, (call_args x c eps'), raw. repeat split; try assumption.
    intros i y Hi Hy. rewrite Hdata, list_lookup_fmap, Hi. cbn. now rewrite Hy.
Qed.

(** X17: with at least one spatial dimension, a lambdified function that
    returns a scalar gives the (N, M) array filled with it (with 0.0 when
    the scalar is NaN). *)
Lemma scalar_is_broadcast (x c : ndarray) (eps : option ndarray) (d : option pyseq)
      (w w' : world) (out : ndarray) (fin : func) (args : list ndarray) (v : float)
      (n m dim : nat) :
  shape x = [n; dim] -> shape c = [m; dim] -> 0 < dim ->
  __call__ x c eps d w = (Ok out, w') ->
  last (trace w') = Some (EvInvoke (Fout fin) args) ->
  fst (call_func fin args) = Ok (Scalar v) ->
  out = full [n; m] (if PrimFloat.is_nan v then 0%float else v).
Proof.
  intros Hx Hc Hdim Hcall Hlast Hfin.
  destruct (call_ok_invokes _ _ _ _ _ _ _ Hcall)
    as (eps' & d' & f & _ & _ & Hv & _ & Hlast' & Hval & _ & _).
  rewrite Hlast in Hlast'. inversion Hlast' as [[Hf Hargs]]. subst f.
  rewrite <- Hargs in Hval.
  destruct (shapes_valid_inv _ _ _ _ Hv) as (n' & m' & dim' & Hx' & Hc' & He' & _).
  rewrite Hx in Hx'. inversion Hx'; subst n' dim'.
  rewrite Hc in Hc'. inversion Hc'; subst m'.
  cbn in Hval. unfold fout_value in Hval. rewrite Hfin in Hval. cbn in Hval.
  assert (Hfirst : exists a, first_arg args = Ok a /\ shape a = [n; 1]).
  { rewrite Hargs. unfold call_args, per_axis_points, per_axis_centers.
    rewrite Hx, Hc. destruct dim as [| k]; [lia |]. cbn. eauto. }
  assert (Hlst : last_arg args = Ok eps').
  { rewrite Hargs. unfold call_args, per_axis_points, per_axis_centers, last_arg.
    rewrite Hx, Hc. now rewrite !app_assoc, last_snoc. }
  destruct Hfirst as (a & Ha & Hsa).
  rewrite Ha, Hlst in Hval. cbn in Hval.
  unfold shape_at in Hval. rewrite Hsa, He' in Hval. cbn in Hval.
  inversion Hval. unfold full. cbn [shape data]. f_equal.
  apply List.map_repeat.
Qed.

End Facts.

(** ** The module on the reference engine *)

Section Scenarios.
#[local] Existing Instance Ref.reference.

Lemma init_phs1 (package : string) :
  valid_package package = true ->
  __init__ (Ref.Var _R) package None = Ok (phs1 package).
Proof.
  intros Hp. unfold __init__, set_package. cbn. rewrite Hp. reflexivity.
Qed.

Lemma init_inverse : __init__ (Ref.Pow (Ref.Var _R) (-1)) "numpy" None = Ok inverse.
Proof. reflexivity. Qed.

Lemma init_phs_even : __init__ (Ref.Pow (Ref.Var _R) 2) "numpy" None = Ok phs_even.
Proof. reflexivity. Qed.

(** C8: the engine built from the expression [R], stored as [EPS*R];
    points [[-1],[0],[1]], the center [[0]], shape parameter [2.0] and the
    zero-order derivative, given or left out, with either package: the
    result is the 3 x 1 array [[2.0],[0.0],[2.0]]. *)
Theorem phs1_scenario :
  __init__ (Ref.Var _R) "cython" None = Ok (phs1 "cython")
  /\ _expr (phs1 "cython") = Ref.Mul (Ref.Var _EPS) (Ref.Var _R)
  /\ fst (__call__ x3 c1 (Some eps2) (Some (PyTuple [0%Z])) (fresh (phs1 "cython")))
     = Ok (arr [3; 1] [2%float; 0%float; 2%float])
  /\ fst (__call__ x3 c1 (Some eps2) None (fresh (phs1 "cython")))
     = Ok (arr [3; 1] [2%float; 0%float; 2%float])
  /\ fst (__call__ x3 c1 (Some eps2) (Some (PyTuple [0%Z])) (fresh (phs1 "numpy")))
     = Ok (arr [3; 1] [2%float; 0%float; 2%float]).
Proof. repeat split; vm_compute; reflexivity. Qed.

Lemma call_succeeded (p : result ndarray * world) :
  is_ok (fst p) = true -> p = (Ok (value_of p), world_after p).
Proof.
  destruct p as [[a | ex] w]; cbn; [reflexivity | discriminate].
Qed.

(** C1 fails as stated: after [set_tol] on an object whose cache holds the
    function of signature (0,), the next evaluation of that signature
    compiles nothing and calls that very function, which was compiled with
    no tolerance; the function the new tolerance compiles, after
    [clear_cache], is another one. *)
Lemma set_tol_reuses_the_cached_function :
  _cache warmed !! PyTuple [0%Z] = Some untoleranced
  /\ is_ok (fst (__call__ x3 c1 (Some eps2) None (fresh (set_tol warmed (Some 0.5%float)))))
     = true
  /\ compilations
       (trace (snd (__call__ x3 c1 (Some eps2) None (fresh (set_tol warmed (Some 0.5%float))))))
     = 0
  /\ last (trace (snd (__call__ x3 c1 (Some eps2) None
                         (fresh (set_tol warmed (Some 0.5%float))))))
     = Some (EvInvoke untoleranced [arr [3; 1] [(-1)%float; 0%float; 1%float]; c1; eps2])
  /\ (fun f => Ref.fbody (underlying f))
       <$> (_cache (self (snd (__call__ x3 c1 (Some eps2) None
                                 (fresh (clear_cache (set_tol warmed (Some 0.5%float)))))))
              !! PyTuple [0%Z])
     <> Some (Ref.fbody (underlying untoleranced)).
Proof.
  split; [reflexivity |].
  split; [reflexivity |].
  split; [reflexivity |].
  split; [reflexivity |].
  vm_compute. discriminate.
Qed.

(** C6 fails as stated: the array returned for [1/R] at a point that is a
    center holds an infinity. *)
Lemma infinity_is_returned :
  fst (__call__ x3 c1 (Some eps2) None (fresh inverse))
  = Ok (arr [3; 1] [0.5%float; infinity; 0.5%float])
  /\ has_infinity (value_of (__call__ x3 c1 (Some eps2) None (fresh inverse))) = true.
Proof. split; reflexivity. Qed.

(** C7: three points and one center in a space of no dimension, package
    numpy: the lambdified function returns the scalar 0 and the result is
    a 1 x 1 array, where N x M is 3 x 1. *)
Theorem no_dimension_scalar_shape :
  fst (__call__ x30 c10 None None (fresh (phs1 "numpy"))) = Ok (arr [1; 1] [0%float])
  /\ shape (value_of (__call__ x30 c10 None None (fresh (phs1 "numpy")))) <> [3; 1].
Proof. split; [reflexivity | vm_compute; discriminate]. Qed.

(** C9 fails as stated: the signature (3,-1) has the right length and a
    negative entry, and its evaluation succeeds: the third derivative
    along the first axis is 0, a number, whose derivative with no variable
    the library gives as 0. *)
Lemma negative_order_evaluates :
  fst (__call__ (arr [1; 2] [1%float; 2%float]) (arr [1; 2] [0%float; 0%float]) None
         (Some (PyTuple [3%Z; (-1)%Z])) (fresh phs_even))
  = Ok (arr [1; 1] [0%float]).
Proof. reflexivity. Qed.


(** *** The theorems at work on concrete inputs *)

Lemma init_normalizes_witness :
  __init__ (Ref.Num 1) "cython" None = Raise (ValueError NotAFunctionOfR)
  /\ __init__ (Ref.Var _R) "cython" None
     = Ok {| _expr := Ref.Mul (Ref.Var _EPS) (Ref.Var _R);
             _package := "cython"; _tol := None; _cache := ∅ |}
  /\ __init__ (Ref.Mul (Ref.Var _EPS) (Ref.Var _R)) "numpy" (Some 0.5%float)
     = Ok {| _expr := Ref.Mul (Ref.Var _EPS) (Ref.Var _R);
             _package := "numpy"; _tol := Some 0.5%float; _cache := ∅ |}.
Proof.
  split; [| split].
  - apply (proj1 (@init_normalizes Ref.reference (Ref.Num 1) "cython" None)). reflexivity.
  - apply (proj1 (proj2 (@init_normalizes Ref.reference (Ref.Var _R) "cython" None))); reflexivity.
  - apply (proj2 (proj2 (@init_normalizes Ref.reference (Ref.Mul (Ref.Var _EPS) (Ref.Var _R))
                           "numpy" (Some 0.5%float)))); reflexivity.
Defined.

Lemma default_diff_precedes_the_checks_witness :
  resolved_eps c1 None = Ok (ones 1)
  /\ ndim (arr [2] [1%float; 2%float]) < 2
  /\ __call__ (arr [2] [1%float; 2%float]) c1 None None (fresh (phs1 "cython"))
     = (Raise IndexError, fresh (phs1 "cython")).
Proof.
  split; [reflexivity |]. split; [cbn; lia |].
  apply (@default_diff_precedes_the_checks Ref.reference
           (arr [2] [1%float; 2%float]) c1 None (ones 1) (fresh (phs1 "cython"))).
  - reflexivity.
  - cbn. lia.
Defined.


Lemma diff_is_coerced_to_a_tuple_witness :
  keys_are_tuples (self (fresh (phs1 "numpy")))
  /\ __call__ x3 c1 None (Some (PyList [0%Z])) (fresh (phs1 "numpy"))
     = __call__ x3 c1 None (Some (PyTuple [0%Z])) (fresh (phs1 "numpy"))
  /\ keys_are_tuples
       (self (snd (__call__ x3 c1 None (Some (PyList [0%Z])) (fresh (phs1 "numpy"))))).
Proof.
  assert (Hk : keys_are_tuples (self (fresh (phs1 "numpy")))).
  { intros k f Hf. cbn [self fresh phs1 _cache] in Hf.
    rewrite lookup_empty in Hf. discriminate. }
  destruct (@diff_is_coerced_to_a_tuple Ref.reference [0%Z] x3 c1 None (fresh (phs1 "numpy")))
    as (Hcall & _ & Hkeys).
  split; [exact Hk |]. split; [exact Hcall |].
  exact (proj2 (Hkeys Hk (PyList [0%Z]))).
Defined.

Lemma policy_setters_keep_the_cache_witness :
  (set_tol warmed (Some 0.5%float) = set_tol warmed (Some 0.5%float)
   \/ set_package warmed "numpy" = Ok (set_tol warmed (Some 0.5%float)))
  /\ _cache (set_tol warmed (Some 0.5%float)) = _cache warmed
  /\ compilations
       (trace (world_after (__call__ x3 c1 (Some eps2) None
                              (fresh (set_tol warmed (Some 0.5%float))))))
     = compilations (trace (fresh (set_tol warmed (Some 0.5%float))))
  /\ compilations
       (trace (world_after (__call__ x3 c1 (Some eps2) None
                              (fresh (clear_cache (set_tol warmed (Some 0.5%float)))))))
     = S (compilations (trace (fresh (clear_cache (set_tol warmed (Some 0.5%float))))))
  /\ trace (world_after (__call__ x3 c1 (Some eps2) None
                           (fresh (clear_cache (set_tol warmed (Some 0.5%float))))))
       !! 1
     = Some (EvCompile "numpy" [x_ 0; c_ 0; _EPS]
               (Ref.Pw (Ref.Num 0)
                       (CondLt (Ref.Sqrt (Ref.Pow (Ref.Add (Ref.Var (x_ 0))
                                    (Ref.Mul (Ref.Num (-1)) (Ref.Var (c_ 0)))) 2))
                               0.5%float)
                       scaled_distance CondTrue)).
Proof.
  destruct (@policy_setters_keep_the_cache Ref.reference
              warmed (set_tol warmed (Some 0.5%float))
              (Some 0.5%float) "numpy" (or_introl eq_refl))
    as (Hc & Hreuse & _ & Hnew & _).
  split; [left; reflexivity |]. split; [exact Hc |]. split.
  - destruct (Hreuse x3 c1 (Some eps2) None (PyTuple [0%Z]) untoleranced
                (fresh (set_tol warmed (Some 0.5%float)))
                (world_after (__call__ x3 c1 (Some eps2) None
                                (fresh (set_tol warmed (Some 0.5%float)))))
                (value_of (__call__ x3 c1 (Some eps2) None
                             (fresh (set_tol warmed (Some 0.5%float))))))
      as (args & _ & Hn).
    + reflexivity.
    + reflexivity.
    + reflexivity.
    + apply call_succeeded. reflexivity.
    + exact Hn.
  - destruct (Hnew x3 c1 (Some eps2) None
                (fresh (clear_cache (set_tol warmed (Some 0.5%float))))
                (world_after (__call__ x3 c1 (Some eps2) None
                                (fresh (clear_cache (set_tol warmed (Some 0.5%float))))))
                (value_of (__call__ x3 c1 (Some eps2) None
                             (fresh (clear_cache (set_tol warmed (Some 0.5%float)))))))
      as (d' & e & f & args & Hd & Hs & _ & Hw' & Hn).
    + reflexivity.
    + apply call_succeeded. reflexivity.
    + split; [exact Hn |].
      (* the run itself: its second event is the compilation *)
      reflexivity.
Defined.

Lemma repeated_signature_compiles_once_witness :
  let w0 := fresh phs_even in
  let p1 := __call__ x22 c32 None (Some (PyTuple [1%Z; 0%Z])) w0 in
  let p2 := __call__ x22 c32 None (Some (PyTuple [0%Z; 1%Z])) (world_after p1) in
  let p3 := __call__ x22 c32 None (Some (PyTuple [1%Z; 0%Z])) (world_after p2) in
  (is_ok (fst p1) && is_ok (fst p2) && is_ok (fst p3) = true)
  /\ compilations (trace (world_after p3)) = 2 + compilations (trace w0)
  /\ compilations (trace (world_after p3)) = compilations (trace (world_after p2))
  /\ value_of p3 = value_of p1.
Proof.
  cbv zeta. split; [reflexivity |].
  pose (p1 := __call__ x22 c32 None (Some (PyTuple [1%Z; 0%Z])) (fresh phs_even)).
  pose (p2 := __call__ x22 c32 None (Some (PyTuple [0%Z; 1%Z])) (world_after p1)).
  pose (p3 := __call__ x22 c32 None (Some (PyTuple [1%Z; 0%Z])) (world_after p2)).
  destruct (@repeated_signature_compiles_once Ref.reference
              (PyTuple [1%Z; 0%Z]) (PyTuple [0%Z; 1%Z]) x22 c32 x22 c32 None None
              (fresh phs_even) (world_after p1) (world_after p2) (world_after p3)
              (value_of p1) (value_of p2) (value_of p3)
              ltac:(discriminate) ltac:(reflexivity) ltac:(reflexivity)
              (call_succeeded p1 eq_refl) (call_succeeded p2 eq_refl)
              (call_succeeded p3 eq_refl))
    as (Ha & Hb & Hc & _).
  split; [exact Ha | split; [exact Hb | exact Hc]].
Defined.

Lemma tolerance_compiles_a_piecewise_witness :
  Forall (fun k => (0 <= k)%Z) (items (PyTuple [0%Z; 1%Z]))
  /\ symbolic (set_tol phs_even (Some 0.5%float)) [0%Z; 1%Z]
     = Ok (Ref.Pw
             (Ref.Num 0)
             (CondLt
                (Ref.Sqrt
                   (Ref.Add
                      (Ref.Pow (Ref.Add (Ref.Var (x_ 0))
                                        (Ref.Mul (Ref.Num (-1)) (Ref.Var (c_ 0)))) 2)
                      (Ref.Pow (Ref.Add (Ref.Var (x_ 1))
                                        (Ref.Mul (Ref.Num (-1)) (Ref.Var (c_ 1)))) 2)))
                0.5%float)
             (Ref.Mul (Ref.Pow (Ref.Var _EPS) 2)
                (Ref.Mul (Ref.Num 2)
                   (Ref.Add (Ref.Var (x_ 1)) (Ref.Mul (Ref.Num (-1)) (Ref.Var (c_ 1))))))
             CondTrue)
  /\ symbolic (set_tol (phs1 "numpy") (Some 0.5%float)) [1%Z]
     = Ok (Ref.Pw
             (Ref.Var _EPS)
             (CondLt
                (Ref.Sqrt (Ref.Pow (Ref.Add (Ref.Var (x_ 0))
                                            (Ref.Mul (Ref.Num (-1)) (Ref.Var (c_ 0)))) 2))
                0.5%float)
             (Ref.d1 (x_ 0) scaled_distance)
             CondTrue)
  /\ compilations
       (trace (snd (add_to_cache (PyTuple [0%Z; 1%Z])
                      (fresh (set_tol phs_even (Some 0.5%float))))))
     = 1.
Proof.
  assert (Hnn : Forall (fun k => (0 <= k)%Z) [0%Z; 1%Z]).
  { repeat constructor; lia. }
  destruct (@tolerance_compiles_a_piecewise Ref.reference
              (set_tol phs_even (Some 0.5%float)) (PyTuple [0%Z; 1%Z]) 0.5%float
              (fresh (set_tol phs_even (Some 0.5%float)))
              eq_refl eq_refl eq_refl Hnn)
    as (_ & Htrace & _).
  split; [exact Hnn |]. split; [| split].
  - (* the code's loops, run as they are *)
    reflexivity.
  - reflexivity.
  - (* the specification's steps, run as they are *)
    rewrite (Htrace _ eq_refl). reflexivity.
Defined.

(** The first derivative of [EPS*R] at a point that is a center is 0/0:
    the compiled function gives NaN there. *)
Example first_derivative_at_the_center :
  Ref.scall {| Ref.as_ufunc := false; Ref.fargs := [x_ 0; c_ 0; _EPS];
               Ref.fbody := Ref.d1 (x_ 0) scaled_distance |}
            [arr [3; 1] [(-1)%float; 0%float; 1%float]; c1; eps2]
  = (Ok (Array (arr [3; 1] [(-2)%float; nan; 2%float])),
     [RuntimeWarning "invalid value or divide by zero"]).
Proof. reflexivity. Qed.

Lemma nan_entries_become_zero_witness :
  is_ok (fst (__call__ x3 c1 (Some eps2) (Some (PyTuple [1%Z])) (fresh (phs1 "numpy")))) = true
  /\ value_of (__call__ x3 c1 (Some eps2) (Some (PyTuple [1%Z])) (fresh (phs1 "numpy")))
     = arr [3; 1] [(-2)%float; 0%float; 2%float]
  /\ has_nan (value_of (__call__ x3 c1 (Some eps2) (Some (PyTuple [1%Z]))
                          (fresh (phs1 "numpy")))) = false
  /\ shown (world_after (__call__ x3 c1 (Some eps2) (Some (PyTuple [1%Z]))
                           (fresh (phs1 "numpy")))) = [].
Proof.
  split; [reflexivity |]. split; [reflexivity |].
  destruct (@nan_entries_become_zero Ref.reference x3 c1 (Some eps2) (Some (PyTuple [1%Z]))
              (fresh (phs1 "numpy")) _ _
              (call_succeeded
                 (__call__ x3 c1 (Some eps2) (Some (PyTuple [1%Z])) (fresh (phs1 "numpy")))
                 eq_refl))
    as (Hnan & _ & Hshown & _).
  split; [exact Hnan | exact Hshown].
Defined.

Lemma negative_order_is_left_to_the_library_witness :
  (items (PyTuple [3%Z; (-1)%Z]) = [3%Z] ++ (-1)%Z :: [] /\ (-1 < 0)%Z)
  /\ differentiate (subs (_expr phs_even) _R (r_sym 2)) (zip (take 1 (x_sym 2)) [3%Z])
     = Ok (Ref.Num 0)
  /\ differentiate (subs (_expr phs_even) _R (r_sym 2)) (zip (x_sym 2) [3%Z; (-1)%Z])
     = differentiate (Ref.Num 0) (zip (drop 2 (x_sym 2)) [])
  /\ add_to_cache (PyTuple [0%Z; (-1)%Z]) (fresh phs_even)
     = (Raise (LibraryError "ValueError"), fresh phs_even).
Proof.
  split; [split; [reflexivity | lia] |]. split; [reflexivity |]. split.
  - apply (proj2 (@negative_order_is_left_to_the_library Ref.reference
                    phs_even (PyTuple [3%Z; (-1)%Z]) [3%Z] [] (-1)%Z (Ref.Num 0)
                    (fresh phs_even) eq_refl eq_refl ltac:(lia) eq_refl)).
    reflexivity.
  - apply (proj1 (@negative_order_is_left_to_the_library Ref.reference
                    phs_even (PyTuple [0%Z; (-1)%Z]) [0%Z] [] (-1)%Z
                    (subs (_expr phs_even) _R (r_sym 2))
                    (fresh phs_even) eq_refl eq_refl ltac:(lia) eq_refl)).
    reflexivity.
Defined.

End Scenarios.

(** ** More on the methods, for every engine *)

Section MoreFacts.
Context `{Sympy}.

(** *** Construction and the setters *)

(** X1: construction succeeds exactly when the expression depends on the
    radius symbol and the package name is cython or numpy; with a good
    expression and another package name it fails with the ValueError of
    [set_package]; and the object it returns has that package, the given
    tolerance and an empty cache. *)
Theorem init_succeeds_iff (e : expr) (package : string) (tol : option float) :
  is_ok (__init__ e package tol) = has e _R && valid_package package
  /\ (has e _R = true -> valid_package package = false ->
      __init__ e package tol = Raise (ValueError BadPackage))
  /\ (forall o, __init__ e package tol = Ok o ->
        valid_package (_package o) = true /\ _package o = package
        /\ _tol o = tol /\ _cache o = ∅).
Proof.
  unfold __init__, normalize, set_package, clear_cache, set_tol.
  destruct (has e _R) eqn:HR; cbn.
  - destruct (has e _EPS); cbn; destruct (valid_package package) eqn:HP; cbn;
      (split; [reflexivity |]); (split; [intros _ Hf; try discriminate; reflexivity |]);
      intros o Ho; inversion Ho; subst; cbn; auto.
  - split; [reflexivity |]. split; [discriminate |]. discriminate.
Qed.

(** *** __call__: what it keeps and what it changes *)

(** X2: whatever a call does, it leaves the expression, the package and
    the tolerance alone, never removes or replaces a function that was
    cached before, restores the warning filter and lets no warning
    through. *)
Theorem call_keeps_policy_and_entries
        (x c : ndarray) (eps : option ndarray) (d : option pyseq) (w : world) :
  _expr (self (snd (__call__ x c eps d w))) = _expr (self w)
  /\ _package (self (snd (__call__ x c eps d w))) = _package (self w)
  /\ _tol (self (snd (__call__ x c eps d w))) = _tol (self w)
  /\ (forall k f, _cache (self w) !! k = Some f ->
                  _cache (self (snd (__call__ x c eps d w))) !! k = Some f)
  /\ ignore_warnings (snd (__call__ x c eps d w)) = ignore_warnings w
  /\ shown (snd (__call__ x c eps d w)) = shown w.
Proof.
  destruct (call_cases x c eps d w) as [[ex Hr] | (eps' & d' & _ & _ & Ht & _ & Hc)].
  - rewrite Hr. cbn. auto 10.
  - rewrite Hc. pose proof (call_cached_cases d' (call_args x c eps') w Ht) as Hcc.
    destruct (call_cached d' (call_args x c eps') w) as [r w'].
    destruct Hcc as (Hi & Hs & He & Hp & Hto & Hcache). cbn [snd].
    repeat split; try assumption.
    intros k f Hk. destruct Hcache as [-> | (g & Hnone & ->)]; [exact Hk |].
    rewrite lookup_insert_ne; [exact Hk |]. intros ->. congruence.
Qed.

(** X3: a second call with the same arguments returns the same array,
    compiles nothing and leaves the object as the first call left it: it
    looks the signature up and calls the cached function. *)
Theorem evaluation_is_idempotent
        (x c : ndarray) (eps : option ndarray) (d : option pyseq)
        (w w1 : world) (out : ndarray) :
  __call__ x c eps d w = (Ok out, w1) ->
  exists d' f args,
    resolved_diff x d = Ok d'
    /\ __call__ x c eps d w1
       = (Ok out, logged w1 [EvLookup d'; EvLookup d'; EvInvoke f args]).
Proof.
  intros Hcall.
  destruct (call_ok_invokes _ _ _ _ _ _ _ Hcall)
    as (eps' & d' & f & He & Hd & Hv & Hf & _ & Hval & _ & _).
  exists d', f, (call_args x c eps'). split; [exact Hd |].
  rewrite (call_accepts x c eps d eps' d' w1 He Hd Hv).
  rewrite (call_cached_hit d' _ w1 f (resolved_diff_is_tuple _ _ _ Hd) Hf).
  now rewrite Hval.
Qed.

(** X4: a call that succeeds has compiled once if the signature was not
    cached and not at all if it was, and the signature is cached
    afterwards. *)
Theorem compiles_exactly_on_a_miss
        (x c : ndarray) (eps : option ndarray) (d : option pyseq) (d' : pyseq)
        (w w' : world) (out : ndarray) :
  resolved_diff x d = Ok d' ->
  __call__ x c eps d w = (Ok out, w') ->
  compilations (trace w')
  = compilations (trace w) + match _cache (self w) !! d' with Some _ => 0 | None => 1 end
  /\ is_Some (_cache (self w') !! d').
Proof.
  intros Hd Hcall.
  destruct (_cache (self w) !! d') as [f |] eqn:Hf.
  - destruct (call_ok_hit x c eps d d' f w w' out Hd Hf Hcall) as (eps' & _ & _ & _ & ->).
    split.
    + unfold logged; cbn [trace]. rewrite compilations_app. unfold compilations; cbn. lia.
    + cbn. rewrite Hf. eauto.
  - destruct (call_ok_miss x c eps d d' w w' out Hd Hf Hcall)
      as (eps' & e & f & _ & _ & _ & _ & _ & ->).
    split.
    + unfold logged, stored; cbn [trace]. rewrite compilations_app.
      unfold compilations; cbn. lia.
    + cbn. rewrite lookup_insert_eq. eauto.
Qed.

(** X5: a call that raises leaves the cache as it was, with one
    exception: when the function was compiled and stored and it is its
    numeric call (or the clean-up of its output) that raised, the new
    function stays in the cache. *)
Theorem failed_call_and_the_cache
        (x c : ndarray) (eps : option ndarray) (d : option pyseq)
        (w w' : world) (ex : exn) :
  __call__ x c eps d w = (Raise ex, w') ->
  _cache (self w') = _cache (self w)
  \/ exists d' eps' f,
       resolved_diff x d = Ok d' /\ resolved_eps c eps = Ok eps'
       /\ _cache (self w) !! d' = None
       /\ _cache (self w') = <[d' := f]> (_cache (self w))
       /\ and_then (callable_value f (call_args x c eps')) _replace_nan = Raise ex.
Proof.
  intros Hcall.
  destruct (call_cases x c eps d w) as [[ex' Hr] | (eps' & d' & He & Hd & Ht & _ & Hc)].
  - rewrite Hr in Hcall. inversion Hcall. now left.
  - rewrite Hc in Hcall.
    destruct (_cache (self w) !! d') as [f |] eqn:Hf.
    + rewrite (call_cached_hit d' _ w f Ht Hf) in Hcall. inversion Hcall. now left.
    + rewrite (call_cached_miss d' _ w Ht Hf) in Hcall.
      destruct (symbolic (self w) (items d')) as [e | ex1];
        [| inversion Hcall; now left].
      destruct (compile_with _ _ e) as [[f | ex1] |]; cbn zeta in Hcall;
        inversion Hcall; try (now left).
      right. exists d', eps', f. auto 10.
Qed.

(** *** __call__: the checks *)

(** X6: with [eps] and [diff] given, the checks are made in this order
    and each raises its own ValueError with the world untouched: arrays
    that are not two-dimensional; then spatial dimensions that differ;
    then an [eps] (not zero-dimensional) that is not one entry per center;
    then a [diff] of the wrong length. *)
Theorem shape_checks_in_order (x c eps : ndarray) (d : pyseq) (w : world) :
  (ndim x <> 2 \/ ndim c <> 2 ->
   __call__ x c (Some eps) (Some d) w = (Raise (ValueError NotTwoDimensional), w))
  /\ (forall n m dx dc,
        shape x = [n; dx] -> shape c = [m; dc] -> dx <> dc ->
        __call__ x c (Some eps) (Some d) w = (Raise (ValueError SpatialDimsDiffer), w))
  /\ (forall n m dim,
        shape x = [n; dim] -> shape c = [m; dim] -> ndim eps <> 0 -> shape eps <> [m] ->
        __call__ x c (Some eps) (Some d) w = (Raise (ValueError BadEps), w))
  /\ (forall n m dim,
        shape x = [n; dim] -> shape c = [m; dim] -> shape eps = [m] -> len d <> dim ->
        __call__ x c (Some eps) (Some d) w = (Raise (ValueError BadDiffLength), w)).
Proof.
  unfold __call__, ndim, shape_at, raise, bind, lift, ret.
  repeat split.
  - intros Hnd.
    destruct (shape x) as [| n [| dx [| ? ?]]]; cbn; try reflexivity.
    destruct (shape c) as [| m [| dc [| ? ?]]]; cbn; try reflexivity.
    cbn in Hnd. destruct Hnd as [Hx | Hc]; [now destruct Hx | now destruct Hc].
  - intros n m dx dc -> -> Hne. cbn.
    apply Nat.eqb_neq in Hne. rewrite Hne. reflexivity.
  - intros n m dim -> -> Hn Hs. cbn. rewrite Nat.eqb_refl. cbn.
    destruct (shape eps) as [| e [| ? ?]]; cbn; try reflexivity.
    + now destruct Hn.
    + destruct (e =? m)%nat eqn:E; cbn; [| reflexivity].
      apply Nat.eqb_eq in E. subst e. now destruct Hs.
  - intros n m dim -> -> -> Hl. cbn. rewrite !Nat.eqb_refl. cbn.
    change (length (items d)) with (len d).
    apply Nat.eqb_neq in Hl. rewrite Hl. reflexivity.
Qed.

(** X7: a zero-dimensional [eps] (a scalar shape parameter) is not
    refused with a ValueError: once the first two checks have passed,
    [eps.shape[0]] raises an IndexError, since [&] evaluates both of its
    operands.  The world is untouched. *)
Theorem scalar_eps_is_an_index_error
        (x c eps : ndarray) (d : option pyseq) (n m dim : nat) (w : world) :
  shape x = [n; dim] -> shape c = [m; dim] -> shape eps = [] ->
  __call__ x c (Some eps) d w = (Raise IndexError, w).
Proof.
  intros Hx Hc He. rewrite call_defaults. cbn [resolved_eps].
  assert (Hd : exists d', resolved_diff x d = Ok d').
  { destruct d as [d0 |]; cbn; [eauto |].
    unfold shape_at. rewrite Hx. cbn. eauto. }
  destruct Hd as [d' ->].
  unfold __call__, ndim, shape_at, raise, bind, lift, ret.
  rewrite Hx, Hc, He. cbn. rewrite Nat.eqb_refl. reflexivity.
Qed.

(** X8: leaving [eps] and [diff] out is calling with one shape parameter
    1.0 per center and the zero order along every axis. *)
Theorem defaults_are_ones_and_zeros
        (x c : ndarray) (n dim m : nat) (rest : list nat) (w : world) :
  shape x = [n; dim] -> shape c = m :: rest ->
  __call__ x c None None w
  = __call__ x c (Some (ones m)) (Some (PyTuple (repeat 0%Z dim))) w.
Proof.
  intros Hx Hc. rewrite (call_defaults x c None None).
  unfold resolved_eps, resolved_diff, shape_at. rewrite Hx, Hc. reflexivity.
Qed.

(** X9: the compiled function is called with as many arrays as it was
    compiled with argument symbols: one per axis for the points, one per
    axis for the centers, and [eps]. *)
Theorem call_and_compile_agree_on_arity (x c eps : ndarray) (d : pyseq) :
  shapes_valid x c eps d = true ->
  length (call_args x c eps) = length (compile_args (len d))
  /\ length (call_args x c eps) = 2 * len d + 1.
Proof.
  intros Hv. destruct (shapes_valid_inv _ _ _ _ Hv) as (n & m & dim & Hx & Hc & _ & Hl).
  unfold call_args, per_axis_points, per_axis_centers, compile_args, x_sym, c_sym.
  rewrite Hx, Hc, Hl.
  rewrite !length_app, !length_map, !length_seq. cbn. lia.
Qed.

Lemma flat_map_block {A} (f : nat -> list A) (sz a n q : nat) :
  (forall k, length (f k) = sz) -> q < n ->
  take sz (drop (q * sz) (flat_map f (seq a n))) = f (a + q).
Proof.
  intros Hlen. revert a q. induction n as [| n IH]; intros a q Hq; [lia |].
  cbn [seq flat_map]. destruct q as [| q].
  - cbn [Nat.mul drop]. rewrite Nat.add_0_r. apply take_app_length'. now rewrite Hlen.
  - cbn [Nat.mul]. rewrite drop_app_add' by now rewrite Hlen.
    rewrite IH by lia. f_equal. lia.
Qed.

Lemma flat_map_one {A} (g : nat -> A) (l : list nat) :
  flat_map (fun i => [g i]) l = map g l.
Proof. induction l as [| i l IH]; cbn; [reflexivity | now rewrite IH]. Qed.

(** X10: the arrays [__call__] passes are what its three array steps
    make of a two-dimensional array: the new axis ([x[:,None,:]],
    [c[None,:,:]]), then [einsum('ijk->kij')], then [tuple].  So argument
    [k] is the (N,1) column of the [k]-th coordinates of the points, and
    argument [D + k] the (1,M) row of the [k]-th coordinates of the
    centers. *)
Theorem per_axis_arrays_are_the_array_steps (x c : ndarray) :
  ndim x = 2 -> ndim c = 2 ->
  per_axis_points x
  = and_then (new_axis_middle x) (fun a => and_then (einsum_ijk_kij a) tuple_of_array)
  /\ per_axis_centers c
     = and_then (new_axis_front c) (fun a => and_then (einsum_ijk_kij a) tuple_of_array).
Proof.
  unfold ndim. intros Hx Hc.
  destruct (shape x) as [| n [| d [| ? ?]]] eqn:Hsx; try discriminate.
  destruct (shape c) as [| m [| dc [| ? ?]]] eqn:Hsc; try discriminate.
  unfold per_axis_points, per_axis_centers, new_axis_middle, new_axis_front.
  rewrite Hsx, Hsc. cbn [and_then einsum_ijk_kij shape data tuple_of_array].
  split; f_equal; apply List.map_ext_in; intros q Hq; apply in_seq in Hq; f_equal.
  - rewrite (flat_map_block _ (size_of [n; 1]) 0 d q).
    + cbn [Nat.add seq map]. rewrite flat_map_one. unfold column.
      apply List.map_ext. intros i. f_equal; lia.
    + intros k. cbn [seq map]. rewrite flat_map_one, length_map, length_seq. cbn. lia.
    + lia.
  - rewrite (flat_map_block _ (size_of [1; m]) 0 dc q).
    + cbn [Nat.add seq flat_map]. rewrite app_nil_r. unfold column.
      apply List.map_ext. intros j. f_equal; lia.
    + intros k. cbn [seq flat_map]. rewrite app_nil_r, length_map, length_seq. cbn. lia.
    + lia.
Qed.

(** X11: the argument symbols of a compiled function are all different. *)
Theorem compile_args_are_distinct (dim : nat) : NoDup (compile_args dim).
Proof.
  unfold compile_args, x_sym, c_sym.
  apply NoDup_app. split; [| split].
  - apply NoDup_fmap_2; [intros a b Hab; now inversion Hab | apply NoDup_seq].
  - intros s Hs Hs'. apply list_elem_of_fmap in Hs as (i & -> & _).
    apply elem_of_app in Hs' as [Hs' | Hs'].
    + apply list_elem_of_fmap in Hs' as (j & Hj & _). discriminate.
    + apply list_elem_of_singleton in Hs'. discriminate.
  - apply NoDup_app. split; [| split].
    + apply NoDup_fmap_2; [intros a b Hab; now inversion Hab | apply NoDup_seq].
    + intros s Hs Hs'. apply list_elem_of_fmap in Hs as (i & -> & _).
      apply list_elem_of_singleton in Hs'. discriminate.
    + apply NoDup_singleton.
Qed.

(** *** add_to_cache *)

(** X12: on an object whose package is cython or numpy, an [add_to_cache]
    that returns has compiled the expression of the signature and stored
    the function under the tuple of the signature, in place of any
    function stored there before; an evaluation of that signature that
    follows and succeeds compiles nothing. *)
Theorem add_to_cache_stores (d : pyseq) (w w' : world) :
  valid_package (_package (self w)) = true ->
  add_to_cache d w = (Ok tt, w') ->
  (exists e f,
     symbolic (self w) (items d) = Ok e
     /\ compile_with (_package (self w)) (compile_args (len d)) e = Some (Ok f)
     /\ w' = stored (logged w [EvCompile (_package (self w)) (compile_args (len d)) e])
                    (tuple d) f)
  /\ (forall x c eps out w'',
        __call__ x c eps (Some d) w' = (Ok out, w'') ->
        compilations (trace w'') = compilations (trace w')).
Proof.
  intros Hp Hadd. rewrite add_to_cache_run in Hadd.
  destruct (symbolic (self w) (items d)) as [e | ex] eqn:Hs; [| discriminate].
  destruct (compile_with_valid (_package (self w)) (compile_args (len d)) e Hp) as [r Hr].
  rewrite Hr in Hadd. destruct r as [f | ex]; cbn zeta in Hadd; [| discriminate].
  inversion Hadd as [Hw']. clear Hadd. split.
  - exists e, f. auto.
  - intros x c eps out w'' Hcall. rewrite Hw' in *.
    assert (Hf : _cache (self w') !! tuple d = Some f).
    { rewrite <- Hw'. cbn. apply lookup_insert_eq. }
    destruct (call_ok_hit x c eps (Some d) (tuple d) f w' w'' out eq_refl Hf Hcall)
      as (eps' & _ & _ & _ & ->).
    unfold logged; cbn [trace]. rewrite compilations_app. unfold compilations; cbn. lia.
Qed.

(** X13: whatever [add_to_cache] does, it leaves the expression, the
    package, the tolerance, the warning filter and every cache entry of
    another signature alone, and invokes the compiler at most once; when
    it raises, the whole cache is as it was. *)
Theorem add_to_cache_frame (d : pyseq) (w : world) :
  _expr (self (snd (add_to_cache d w))) = _expr (self w)
  /\ _package (self (snd (add_to_cache d w))) = _package (self w)
  /\ _tol (self (snd (add_to_cache d w))) = _tol (self w)
  /\ ignore_warnings (snd (add_to_cache d w)) = ignore_warnings w
  /\ shown (snd (add_to_cache d w)) = shown w
  /\ (forall k, k <> tuple d ->
        _cache (self (snd (add_to_cache d w))) !! k = _cache (self w) !! k)
  /\ compilations (trace (snd (add_to_cache d w))) <= S (compilations (trace w))
  /\ (is_ok (fst (add_to_cache d w)) = false ->
      _cache (self (snd (add_to_cache d w))) = _cache (self w)).
Proof.
  rewrite add_to_cache_run.
  destruct (symbolic (self w) (items d)) as [e | ex]; [| cbn; auto 10].
  destruct (compile_with _ _ e) as [[f | ex] |]; cbn [fst snd is_ok].
  - unfold stored, logged; cbn [self trace ignore_warnings shown _expr _package _tol _cache].
    repeat split; try reflexivity.
    + intros k Hk. apply lookup_insert_ne. congruence.
    + rewrite compilations_app. unfold compilations; cbn. lia.
    + discriminate.
  - unfold logged; cbn [self trace ignore_warnings shown].
    repeat split; try reflexivity.
    rewrite compilations_app. unfold compilations; cbn. lia.
  - repeat split; try reflexivity. lia.
Qed.

Lemma differentiate_zero_orders (xs : list symbol) (n : nat) (e : expr) :
  differentiate e (zip xs (repeat 0%Z n)) = Ok e.
Proof.
  revert n. induction xs as [| xi xs IH]; intros [| n]; cbn; try reflexivity.
  apply IH.
Qed.

(** X14: the zero-order signature asks the library for no derivative.
    With no tolerance the expression compiled is the stored expression
    with the distance put in for the radius symbol, and on an object
    whose package is cython or numpy [add_to_cache] always gets as far as
    the compiler. *)
Theorem zero_order_needs_no_derivative (n : nat) (w : world) :
  _tol (self w) = None ->
  valid_package (_package (self w)) = true ->
  symbolic (self w) (repeat 0%Z n) = Ok (subs (_expr (self w)) _R (r_sym n))
  /\ trace (snd (add_to_cache (PyTuple (repeat 0%Z n)) w))
     = trace w ++ [EvCompile (_package (self w)) (compile_args n)
                     (subs (_expr (self w)) _R (r_sym n))].
Proof.
  intros Htol Hp.
  assert (Hs : symbolic (self w) (repeat 0%Z n) = Ok (subs (_expr (self w)) _R (r_sym n))).
  { unfold symbolic. rewrite repeat_length, differentiate_zero_orders, Htol. reflexivity. }
  split; [exact Hs |].
  rewrite add_to_cache_run. cbn [items]. unfold len. cbn [items].
  rewrite repeat_length, Hs.
  destruct (compile_with_valid (_package (self w)) (compile_args n)
              (subs (_expr (self w)) _R (r_sym n)) Hp) as [r ->].
  destruct r; reflexivity.
Qed.

(** *** The module-level helpers *)

Lemma replace_nan_without_nan (l : list float) :
  existsb PrimFloat.is_nan l = false ->
  map (fun y => if PrimFloat.is_nan y then 0%float else y) l = l.
Proof.
  induction l as [| y l IH]; cbn; [reflexivity |].
  intros Hn. apply orb_false_elim in Hn as [Hy Hl]. rewrite Hy. f_equal. now apply IH.
Qed.

(** X15: [_replace_nan] keeps the shape and the number of entries, gives
    back an array without NaN as it is, and applied to its own result
    changes nothing more. *)
Theorem replace_nan_is_idempotent (a out : ndarray) :
  _replace_nan (Array a) = Ok out ->
  shape out = shape a
  /\ length (data out) = length (data a)
  /\ _replace_nan (Array out) = Ok out
  /\ (has_nan a = false -> out = a).
Proof.
  intros Hr. cbn in Hr. inversion Hr as [Ho]. cbn.
  split; [reflexivity |]. split; [apply length_map |]. split.
  - f_equal. f_equal. rewrite List.map_map. apply List.map_ext. intros y.
    destruct (PrimFloat.is_nan y) eqn:Hy; [reflexivity | now rewrite Hy].
  - intros Hn. destruct a as [s l]. cbn. f_equal.
    apply replace_nan_without_nan. exact Hn.
Qed.

(** X16: the wrapper made by [_check_lambdified_output] hands an array
    result on as it is and an exception of the wrapped function on as it
    is; a scalar result becomes the array of shape
    [(args[0].shape[0], args[-1].shape[0])] filled with it; and with no
    argument at all a result of any kind is lost to an IndexError. *)
Theorem fout_leaves_arrays_alone (fin : func) (args : list ndarray) (w : world) :
  (forall ex, fst (call_func fin args) = Raise ex ->
              fst (fout fin args w) = Raise ex)
  /\ (forall a, args <> [] -> fst (call_func fin args) = Ok (Array a) ->
                fst (fout fin args w) = Ok (Array a))
  /\ (forall v x0 e0 n m,
        first_arg args = Ok x0 -> last_arg args = Ok e0 ->
        shape_at x0 0 = Ok n -> shape_at e0 0 = Ok m ->
        fst (call_func fin args) = Ok (Scalar v) ->
        fst (fout fin args w) = Ok (Array (full [n; m] v)))
  /\ (forall v, args = [] -> fst (call_func fin args) = Ok v ->
                fst (fout fin args w) = Raise IndexError).
Proof.
  unfold fout, call_compiled, bind, warn, lift, ret.
  destruct (call_func fin args) as [r ws]; cbn [fst].
  repeat split.
  - intros ex ->. reflexivity.
  - intros a Hne ->. cbn.
    destruct args as [| a0 rest]; [congruence |].
    unfold first_arg, last_arg. cbn [head].
    destruct (last (a0 :: rest)) as [l |] eqn:Hl; [reflexivity |].
    apply last_None in Hl. discriminate.
  - intros v x0 e0 n m Hx He Hn Hm ->. cbn. rewrite Hx, He. cbn. rewrite Hn, Hm. reflexivity.
  - intros v -> ->. reflexivity.
Qed.

End MoreFacts.

(** ** The same facts on the reference engine *)

Section MoreScenarios.
#[local] Existing Instance Ref.reference.

Lemma call_failed (p : result ndarray * world) (ex : exn) :
  fst p = Raise ex -> p = (Raise ex, snd p).
Proof. destruct p as [r w]; cbn. now intros ->. Qed.

Lemma evaluation_is_idempotent_witness :
  is_ok (fst (__call__ x3 c1 (Some eps2) None (fresh (phs1 "numpy")))) = true
  /\ fst (__call__ x3 c1 (Some eps2) None
            (world_after (__call__ x3 c1 (Some eps2) None (fresh (phs1 "numpy")))))
     = Ok (value_of (__call__ x3 c1 (Some eps2) None (fresh (phs1 "numpy"))))
  /\ compilations
       (trace (snd (__call__ x3 c1 (Some eps2) None
                      (world_after (__call__ x3 c1 (Some eps2) None
                                      (fresh (phs1 "numpy")))))))
     = compilations
         (trace (world_after (__call__ x3 c1 (Some eps2) None (fresh (phs1 "numpy"))))).
Proof.
  split; [reflexivity |].
  destruct (@evaluation_is_idempotent Ref.reference x3 c1 (Some eps2) None
              (fresh (phs1 "numpy")) _ _
              (call_succeeded
                 (__call__ x3 c1 (Some eps2) None (fresh (phs1 "numpy"))) eq_refl))
    as (d' & f & args & _ & Heq).
  rewrite Heq. split; [reflexivity |].
  unfold logged; cbn [snd trace]. rewrite compilations_app.
  unfold compilations at 2; cbn. lia.
Defined.

Lemma compiles_exactly_on_a_miss_witness :
  resolved_diff x3 None = Ok (PyTuple [0%Z])
  /\ is_ok (fst (__call__ x3 c1 (Some eps2) None (fresh (phs1 "numpy")))) = true
  /\ compilations
       (trace (world_after (__call__ x3 c1 (Some eps2) None (fresh (phs1 "numpy")))))
     = 1
  /\ compilations
       (trace (world_after (__call__ x3 c1 (Some eps2) None (fresh warmed))))
     = 0.
Proof.
  split; [reflexivity |]. split; [reflexivity |]. split.
  - exact (proj1 (@compiles_exactly_on_a_miss Ref.reference x3 c1 (Some eps2) None
                    (PyTuple [0%Z]) (fresh (phs1 "numpy")) _ _ eq_refl
                    (call_succeeded
                       (__call__ x3 c1 (Some eps2) None (fresh (phs1 "numpy"))) eq_refl))).
  - exact (proj1 (@compiles_exactly_on_a_miss Ref.reference x3 c1 (Some eps2) None
                    (PyTuple [0%Z]) (fresh warmed) _ _ eq_refl
                    (call_succeeded
                       (__call__ x3 c1 (Some eps2) None (fresh warmed)) eq_refl))).
Defined.

Lemma failed_call_and_the_cache_witness :
  fst (__call__ x22 c32 None (Some (PyTuple [0%Z; (-1)%Z])) (fresh phs_even))
  = Raise (LibraryError "ValueError")
  /\ (_cache (self (snd (__call__ x22 c32 None (Some (PyTuple [0%Z; (-1)%Z]))
                           (fresh phs_even))))
      = _cache (self (fresh phs_even))
      \/ exists d' eps' f,
           resolved_diff x22 (Some (PyTuple [0%Z; (-1)%Z])) = Ok d'
           /\ resolved_eps c32 None = Ok eps'
           /\ _cache (self (fresh phs_even)) !! d' = None
           /\ _cache (self (snd (__call__ x22 c32 None (Some (PyTuple [0%Z; (-1)%Z]))
                                   (fresh phs_even))))
              = <[d' := f]> (_cache (self (fresh phs_even)))
           /\ and_then (callable_value f (call_args x22 c32 eps')) _replace_nan
              = Raise (LibraryError "ValueError")).
Proof.
  split; [reflexivity |].
  apply (@failed_call_and_the_cache Ref.reference x22 c32 None
           (Some (PyTuple [0%Z; (-1)%Z])) (fresh phs_even)).
  apply call_failed. reflexivity.
Defined.

Lemma shape_checks_in_order_witness :
  __call__ (arr [3] [1%float; 2%float; 3%float]) c1 (Some eps2) (Some (PyTuple [0%Z]))
           (fresh (phs1 "numpy"))
  = (Raise (ValueError NotTwoDimensional), fresh (phs1 "numpy"))
  /\ __call__ x22 c1 (Some eps2) (Some (PyTuple [0%Z])) (fresh (phs1 "numpy"))
     = (Raise (ValueError SpatialDimsDiffer), fresh (phs1 "numpy"))
  /\ __call__ x22 c32 (Some eps2) (Some (PyTuple [0%Z; 0%Z])) (fresh (phs1 "numpy"))
     = (Raise (ValueError BadEps), fresh (phs1 "numpy"))
  /\ __call__ x3 c1 (Some eps2) (Some (PyTuple [0%Z; 0%Z])) (fresh (phs1 "numpy"))
     = (Raise (ValueError BadDiffLength), fresh (phs1 "numpy")).
Proof.
  split; [| split; [| split]].
  - apply (proj1 (@shape_checks_in_order Ref.reference _ c1 eps2 (PyTuple [0%Z])
                    (fresh (phs1 "numpy")))).
    left. cbn. lia.
  - apply (proj1 (proj2 (@shape_checks_in_order Ref.reference x22 c1 eps2 (PyTuple [0%Z])
                           (fresh (phs1 "numpy")))) 2 1 2 1); [reflexivity | reflexivity | lia].
  - apply (proj1 (proj2 (proj2 (@shape_checks_in_order Ref.reference x22 c32 eps2
                                  (PyTuple [0%Z; 0%Z]) (fresh (phs1 "numpy"))))) 2 3 2);
      [reflexivity | reflexivity | cbn; lia | cbn; congruence].
  - apply (proj2 (proj2 (proj2 (@shape_checks_in_order Ref.reference x3 c1 eps2
                                  (PyTuple [0%Z; 0%Z]) (fresh (phs1 "numpy"))))) 3 1 1);
      [reflexivity | reflexivity | reflexivity | cbn; lia].
Defined.

Lemma scalar_eps_is_an_index_error_witness :
  (shape x3 = [3; 1] /\ shape c1 = [1; 1] /\ shape (arr [] [2%float]) = [])
  /\ __call__ x3 c1 (Some (arr [] [2%float])) None (fresh (phs1 "cython"))
     = (Raise IndexError, fresh (phs1 "cython")).
Proof.
  split; [repeat split |].
  apply (@scalar_eps_is_an_index_error Ref.reference x3 c1 (arr [] [2%float]) None 3 1 1);
    reflexivity.
Defined.

Lemma defaults_are_ones_and_zeros_witness :
  (shape x22 = [2; 2] /\ shape c32 = 3 :: [2])
  /\ __call__ x22 c32 None None (fresh phs_even)
     = __call__ x22 c32 (Some (ones 3)) (Some (PyTuple [0%Z; 0%Z])) (fresh phs_even).
Proof.
  split; [split; reflexivity |].
  apply (@defaults_are_ones_and_zeros Ref.reference x22 c32 2 2 3 [2] (fresh phs_even));
    reflexivity.
Defined.

Lemma call_and_compile_agree_on_arity_witness :
  shapes_valid x22 c32 (ones 3) (PyTuple [1%Z; 0%Z]) = true
  /\ length (call_args x22 c32 (ones 3)) = length (compile_args 2)
  /\ length (call_args x22 c32 (ones 3)) = 5.
Proof.
  split; [reflexivity |].
  apply (@call_and_compile_agree_on_arity x22 c32 (ones 3) (PyTuple [1%Z; 0%Z])).
  reflexivity.
Defined.

Lemma per_axis_arrays_are_the_array_steps_witness :
  (ndim x22 = 2 /\ ndim c32 = 2)
  /\ and_then (new_axis_middle x22) (fun a => and_then (einsum_ijk_kij a) tuple_of_array)
     = Ok [arr [2; 1] [1%float; 3%float]; arr [2; 1] [2%float; 4%float]]
  /\ and_then (new_axis_front c32) (fun a => and_then (einsum_ijk_kij a) tuple_of_array)
     = Ok [arr [1; 3] [0%float; 1%float; 2%float]; arr [1; 3] [0%float; 2%float; 2%float]]
  /\ per_axis_points x22
     = Ok [arr [2; 1] [1%float; 3%float]; arr [2; 1] [2%float; 4%float]]
  /\ per_axis_centers c32
     = Ok [arr [1; 3] [0%float; 1%float; 2%float]; arr [1; 3] [0%float; 2%float; 2%float]].
Proof.
  split; [split; reflexivity |]. split; [reflexivity |]. split; [reflexivity |].
  destruct (per_axis_arrays_are_the_array_steps x22 c32 eq_refl eq_refl) as [Hp Hq].
  split; [rewrite Hp | rewrite Hq]; reflexivity.
Defined.

Lemma add_to_cache_stores_witness :
  valid_package (_package (self (fresh phs_even))) = true
  /\ fst (add_to_cache (PyList [1%Z; 0%Z]) (fresh phs_even)) = Ok tt
  /\ is_Some (_cache (self (snd (add_to_cache (PyList [1%Z; 0%Z]) (fresh phs_even))))
                !! PyTuple [1%Z; 0%Z])
  /\ compilations
       (trace (world_after
                 (__call__ x22 c32 None (Some (PyList [1%Z; 0%Z]))
                    (snd (add_to_cache (PyList [1%Z; 0%Z]) (fresh phs_even))))))
     = compilations (trace (snd (add_to_cache (PyList [1%Z; 0%Z]) (fresh phs_even)))).
Proof.
  split; [reflexivity |]. split; [reflexivity |].
  destruct (@add_to_cache_stores Ref.reference (PyList [1%Z; 0%Z]) (fresh phs_even)
              (snd (add_to_cache (PyList [1%Z; 0%Z]) (fresh phs_even)))
              eq_refl eq_refl)
    as ((e & f & _ & _ & Hw') & Hhit).
  split.
  - rewrite Hw'. cbn. rewrite lookup_insert_eq. eauto.
  - apply (Hhit x22 c32 None
             (value_of (__call__ x22 c32 None (Some (PyList [1%Z; 0%Z]))
                          (snd (add_to_cache (PyList [1%Z; 0%Z]) (fresh phs_even)))))).
    apply call_succeeded. reflexivity.
Defined.

Lemma zero_order_needs_no_derivative_witness :
  (_tol (self (fresh (phs1 "cython"))) = None
   /\ valid_package (_package (self (fresh (phs1 "cython")))) = true)
  /\ symbolic (self (fresh (phs1 "cython"))) [0%Z; 0%Z]
     = Ok (subs (_expr (phs1 "cython")) _R (r_sym 2))
  /\ compilations (trace (snd (add_to_cache (PyTuple [0%Z; 0%Z]) (fresh (phs1 "cython")))))
     = 1.
Proof.
  split; [split; reflexivity |].
  destruct (@zero_order_needs_no_derivative Ref.reference 2 (fresh (phs1 "cython"))
              eq_refl eq_refl) as (Hs & Ht).
  split; [exact Hs |].
  cbn [repeat] in Ht. rewrite Ht. reflexivity.
Defined.

Lemma replace_nan_is_idempotent_witness :
  _replace_nan (Array (arr [3; 1] [(-2)%float; nan; 2%float]))
  = Ok (arr [3; 1] [(-2)%float; 0%float; 2%float])
  /\ _replace_nan (Array (arr [3; 1] [(-2)%float; 0%float; 2%float]))
     = Ok (arr [3; 1] [(-2)%float; 0%float; 2%float])
  /\ length (data (arr [3; 1] [(-2)%float; 0%float; 2%float])) = 3.
Proof.
  split; [reflexivity |].
  destruct (@replace_nan_is_idempotent
              (arr [3; 1] [(-2)%float; nan; 2%float])
              (arr [3; 1] [(-2)%float; 0%float; 2%float]) eq_refl)
    as (_ & Hl & Hi & _).
  split; [exact Hi | exact Hl].
Defined.

Lemma scalar_is_broadcast_witness :
  (shape x22 = [2; 2] /\ shape c32 = [3; 2] /\ 0 < 2)
  /\ is_ok (fst (__call__ x22 c32 None (Some (PyTuple [3%Z; 0%Z])) (fresh phs_even))) = true
  /\ fst (Ref.scall {| Ref.as_ufunc := false; Ref.fargs := compile_args 2;
                       Ref.fbody := Ref.Num 0 |}
                    (call_args x22 c32 (ones 3)))
     = Ok (Scalar 0%float)
  /\ value_of (__call__ x22 c32 None (Some (PyTuple [3%Z; 0%Z])) (fresh phs_even))
     = full [2; 3] 0%float.
Proof.
  split; [repeat split; lia |]. split; [reflexivity |]. split; [reflexivity |].
  apply (@scalar_is_broadcast Ref.reference x22 c32 None (Some (PyTuple [3%Z; 0%Z]))
           (fresh phs_even)
           (world_after (__call__ x22 c32 None (Some (PyTuple [3%Z; 0%Z])) (fresh phs_even)))
           (value_of (__call__ x22 c32 None (Some (PyTuple [3%Z; 0%Z])) (fresh phs_even)))
           {| Ref.as_ufunc := false; Ref.fargs := compile_args 2; Ref.fbody := Ref.Num 0 |}
           (call_args x22 c32 (ones 3)) 0%float 2 3 2).
  - reflexivity.
  - reflexivity.
  - lia.
  - apply call_succeeded. reflexivity.
  - reflexivity.
  - reflexivity.
Defined.

Lemma fout_leaves_arrays_alone_witness :
  fst (fout {| Ref.as_ufunc := false; Ref.fargs := [_EPS]; Ref.fbody := Ref.Var _EPS |}
            [eps2] (fresh (phs1 "numpy")))
  = Ok (Array eps2)
  /\ fst (fout {| Ref.as_ufunc := false; Ref.fargs := [_EPS]; Ref.fbody := Ref.Num 0 |}
               [eps2] (fresh (phs1 "numpy")))
     = Ok (Array (full [1; 1] 0%float))
  /\ fst (fout {| Ref.as_ufunc := false; Ref.fargs := []; Ref.fbody := Ref.Num 0 |}
               [] (fresh (phs1 "numpy")))
     = Raise IndexError.
Proof.
  split; [| split].
  - apply (proj1 (proj2 (@fout_leaves_arrays_alone Ref.reference
                           {| Ref.as_ufunc := false; Ref.fargs := [_EPS];
                              Ref.fbody := Ref.Var _EPS |}
                           [eps2] (fresh (phs1 "numpy"))))); [discriminate | reflexivity].
  - apply (proj1 (proj2 (proj2 (@fout_leaves_arrays_alone Ref.reference
                           {| Ref.as_ufunc := false; Ref.fargs := [_EPS];
                              Ref.fbody := Ref.Num 0 |}
                           [eps2] (fresh (phs1 "numpy"))))) 0%float eps2 eps2 1 1);
      reflexivity.
  - apply (proj2 (proj2 (proj2 (@fout_leaves_arrays_alone Ref.reference
                           {| Ref.as_ufunc := false; Ref.fargs := [];
                              Ref.fbody := Ref.Num 0 |}
                           [] (fresh (phs1 "numpy"))))) (Scalar 0%float)); reflexivity.
Defined.

End MoreScenarios.
